(** * Holder-balance reconstruction of the top-holders bot

    A shallow embedding of [alchemy_client.py] (class [AlchemyClient]) and of
    the address validator it shares with [telegram_bot.py], with the
    properties the specification states about them.

    Conventions of the embedding.
    - A Python [str] is a [string]; a character is a code point below 256
      (Latin-1), which covers every address and amount the API sends.
    - A Python [int] is a [Z]; a Python [float] is an IEEE binary64 value,
      a [spec_float] of the Standard Library at precision 53.
    - A Python [dict] that the code only reads (a transfer record) is a
      [gmap string pyval]; the [defaultdict] that the code fills, and whose
      insertion order the stable sort of the ranking observes, is an
      association list with unique keys.
    - A call that may raise returns a [result]; the pagination loop, which
      the source writes as [while True], runs against the list of the
      answers of the API and has a value when that list is long enough.
    - Logging is left out. *)

From Stdlib Require Import ZArith List Ascii String Bool Lia DecimalString.
From Stdlib Require Import Floats.SpecFloat.
From stdpp Require Import base option list gmap strings sorting.

Local Open Scope string_scope.
Local Open Scope Z_scope.

(** ** Exceptions and results *)

Inductive exn : Type :=
  | Exception (msg : string)
  | AttributeError
  | ValueError
  | TypeError
  | OverflowError.

Inductive result (A : Type) : Type :=
  | Ok (a : A)
  | Raise (e : exn).
Arguments Ok {A} a.
Arguments Raise {A} e.

Definition bind {A B : Type} (r : result A) (k : A -> result B) : result B :=
  match r with
  | Ok a => k a
  | Raise e => Raise e
  end.

Notation "'try!' x ':=' r 'in' k" := (bind r (fun x => k))
  (at level 10, x name, r at level 100, k at level 200).

Definition is_ok {A : Type} (r : result A) : bool :=
  match r with Ok _ => true | Raise _ => false end.

(** ** Python strings *)

Module PyStr.

Definition ord (c : ascii) : Z := Z.of_N (N_of_ascii c).

(** [str.lower] on the Latin-1 range: A-Z and the accented capitals
    U+00C0..U+00DE, the multiplication sign U+00D7 apart. *)
Definition is_upper (c : ascii) : bool :=
  let n := ord c in
  ((65 <=? n) && (n <=? 90)) || ((192 <=? n) && (n <=? 222) && negb (n =? 215)).

Definition lower_char (c : ascii) : ascii :=
  if is_upper c then ascii_of_N (Z.to_N (ord c + 32)) else c.

Fixpoint lower (s : string) : string :=
  match s with
  | EmptyString => EmptyString
  | String c s' => String (lower_char c) (lower s')
  end.

Fixpoint startswith (s p : string) {struct p} : bool :=
  match p, s with
  | EmptyString, _ => true
  | String a p', String b s' => if Ascii.eqb a b then startswith s' p' else false
  | String _ _, EmptyString => false
  end.

(** [s[n:]] for [n >= 0]. *)
Fixpoint drop (n : nat) (s : string) : string :=
  match n, s with
  | O, _ => s
  | S n', String _ s' => drop n' s'
  | S _, EmptyString => EmptyString
  end.

Definition len (s : string) : Z := Z.of_nat (String.length s).

(** Truth value of a string: [""] is the only false one. *)
Definition truthy (s : string) : bool :=
  match s with EmptyString => false | _ => true end.

(** The characters [int()] skips around a literal. *)
Definition isspace (c : ascii) : bool :=
  let n := ord c in
  ((9 <=? n) && (n <=? 13)) || (n =? 32) || (n =? 133) || (n =? 160).

(** Value of a character as a digit, the table of [int()]: 0-9, then a-z and
    A-Z for 10..35. *)
Definition digit_value (c : ascii) : option Z :=
  let n := ord c in
  if (48 <=? n) && (n <=? 57) then Some (n - 48)
  else if (97 <=? n) && (n <=? 122) then Some (n - 87)
  else if (65 <=? n) && (n <=? 90) then Some (n - 55)
  else None.

Definition is_digit (base : Z) (c : ascii) : bool :=
  match digit_value c with
  | Some d => d <? base
  | None => false
  end.

Definition underscore : ascii := "_"%char.

Fixpoint lstrip (s : string) : string :=
  match s with
  | String c s' => if isspace c then lstrip s' else s
  | EmptyString => EmptyString
  end.

(** The digits of a literal, single underscores allowed between them.
    [prev] tells that the character before was an underscore; the scan
    stops at the first character that is neither a digit nor an underscore
    and returns the value read with the rest of the string. *)
Fixpoint scan_digits (base : Z) (s : string) (prev : bool) (acc : Z)
  : option (Z * string) :=
  match s with
  | EmptyString => if prev then None else Some (acc, EmptyString)
  | String c s' =>
      if Ascii.eqb c underscore then
        if prev then None else scan_digits base s' true acc
      else
        match digit_value c with
        | Some d =>
            if d <? base then scan_digits base s' false (acc * base + d)
            else if prev then None else Some (acc, s)
        | None => if prev then None else Some (acc, s)
        end
  end.

(** After the sign: the optional [0x] of base 16 (one underscore may follow
    it), then at least one digit, then only white space. *)
Definition strip_base_prefix (base : Z) (s : string) : string :=
  match s with
  | String z (String x s') =>
      if (base =? 16) && Ascii.eqb z "0" && (Ascii.eqb x "x" || Ascii.eqb x "X")
      then match s' with
           | String u s'' => if Ascii.eqb u underscore then s'' else s'
           | EmptyString => s'
           end
      else s
  | _ => s
  end.

Definition parse_magnitude (base : Z) (s : string) : option Z :=
  match strip_base_prefix base s with
  | EmptyString => None
  | String c _ as body =>
      if is_digit base c then
        match scan_digits base body false 0 with
        | Some (v, rest) =>
            match lstrip rest with
            | EmptyString => Some v
            | _ => None
            end
        | None => None
        end
      else None
  end.

(** [int(s, base)] for base 10 and 16; [None] is [ValueError]. The cap the
    interpreter may put on the number of digits of a decimal literal (a
    run-time setting) is not part of the model. *)
Definition int_of_str (s : string) (base : Z) : option Z :=
  match lstrip s with
  | String c s' =>
      if Ascii.eqb c "+" then parse_magnitude base s'
      else if Ascii.eqb c "-" then option_map Z.opp (parse_magnitude base s')
      else parse_magnitude base (String c s')
  | EmptyString => None
  end.

(** The value of a string of digits read in [base], most significant digit
    first, and the test that a string is made of digits of [base] only. *)
Fixpoint positional (base : Z) (s : string) (acc : Z) : Z :=
  match s with
  | EmptyString => acc
  | String c s' =>
      positional base s'
        (acc * base + match digit_value c with Some d => d | None => 0 end)
  end.

Fixpoint all_digits (base : Z) (s : string) : bool :=
  match s with
  | EmptyString => true
  | String c s' => is_digit base c && all_digits base s'
  end.

End PyStr.

(** ** Python values

    What [json] decoding can put in a field of a transfer record: [null], a
    boolean, a number (an [int] or a [float]), a string, or an array or
    object, of which the code only observes the type. *)

Inductive pyval : Type :=
  | PNone
  | PBool (b : bool)
  | PInt (z : Z)
  | PFloat (f : spec_float)
  | PStr (s : string)
  | PList
  | PDict.

(** [int(f)] of a float: truncation toward zero; NaN and the infinities
    have no integer value. *)
Definition int_of_float (f : spec_float) : result Z :=
  match f with
  | S754_zero _ => Ok 0
  | S754_nan => Raise ValueError
  | S754_infinity _ => Raise OverflowError
  | S754_finite s m e =>
      let mag := if 0 <=? e then Z.pos m * 2 ^ e else Z.pos m / 2 ^ (- e) in
      Ok (if s then - mag else mag)
  end.

(** [int(s, base)] of a string. *)
Definition int_of_string (s : string) (base : Z) : result Z :=
  match PyStr.int_of_str s base with
  | Some z => Ok z
  | None => Raise ValueError
  end.

(** [v.lower()]: only a string has the method. *)
Definition lower_method (v : pyval) : result string :=
  match v with
  | PStr s => Ok (PyStr.lower s)
  | _ => Raise AttributeError
  end.

(** [d.get(key, default)] on a record. *)
Definition get (d : gmap string pyval) (key : string) (default : pyval) : pyval :=
  match d !! key with
  | Some v => v
  | None => default
  end.

(** ** The balance dictionary

    [defaultdict(int)]: an association list in insertion order, one entry
    per key. *)

Abbreviation balance_dict := (list (string * Z)).

Fixpoint dict_get (d : balance_dict) (k : string) : option Z :=
  match d with
  | [] => None
  | (k', v) :: d' => if String.eqb k' k then Some v else dict_get d' k
  end.

(** [d[k] = v]: an existing key keeps its place, a new one goes last. *)
Fixpoint dict_set (d : balance_dict) (k : string) (v : Z) : balance_dict :=
  match d with
  | [] => [(k, v)]
  | (k', v') :: d' =>
      if String.eqb k' k then (k', v) :: d' else (k', v') :: dict_set d' k v
  end.

(** [d[k]] on a [defaultdict(int)]: a missing key reads as 0. *)
Definition getitem (d : balance_dict) (k : string) : Z :=
  match dict_get d k with
  | Some v => v
  | None => 0
  end.

(** [d[k] -= v] and [d[k] += v]. *)
Definition isub (d : balance_dict) (k : string) (v : Z) : balance_dict :=
  dict_set d k (getitem d k - v).

Definition iadd (d : balance_dict) (k : string) (v : Z) : balance_dict :=
  dict_set d k (getitem d k + v).

(** [a == b] on dictionaries: as many entries, and every entry of [a] is
    in [b] with the same value. *)
Definition dict_eqb (a b : balance_dict) : bool :=
  (length a =? length b)%nat
  && forallb (fun '(k, v) => match dict_get b k with
                             | Some w => v =? w
                             | None => false
                             end) a.

(** ** [AlchemyClient.calculate_token_balances] *)

Definition ZERO_ADDRESS : string := "0x0000000000000000000000000000000000000000".

(** The [try] block of the loop: [Ok (Some v)] is the converted value,
    [Ok None] is [continue], taken for a value of another type and for
    [ValueError] and [TypeError]; any other exception leaves the loop. *)
Definition convert_value (value_hex : pyval) : result (option Z) :=
  let attempt : result (option Z) :=
    match value_hex with
    | PStr s =>
        try! value := (if PyStr.startswith s "0x"
                       then int_of_string s 16 else int_of_string s 10) in
        Ok (Some value)
    | PBool b => Ok (Some (if b then 1 else 0))
    | PInt z => Ok (Some z)
    | PFloat f => try! value := int_of_float f in Ok (Some value)
    | PNone | PList | PDict => Ok None
    end in
  match attempt with
  | Raise ValueError | Raise TypeError => Ok None
  | r => r
  end.

(** Is [addr] an address that holds a balance: not empty, not the zero
    address. *)
Definition tracked (addr : string) : bool :=
  PyStr.truthy addr && negb (String.eqb addr ZERO_ADDRESS).

(** One iteration of the loop over the transfers. *)
Definition loop_body (balances : balance_dict) (transfer : gmap string pyval)
  : result balance_dict :=
  try! from_addr := lower_method (get transfer "from" (PStr "")) in
  try! to_addr := lower_method (get transfer "to" (PStr "")) in
  let value_hex := get transfer "value" (PStr "0x0") in
  try! converted := convert_value value_hex in
  match converted with
  | None => Ok balances
  | Some value =>
      let balances :=
        if tracked from_addr then isub balances from_addr value else balances in
      let balances :=
        if tracked to_addr then iadd balances to_addr value else balances in
      Ok balances
  end.

Fixpoint accumulate (balances : balance_dict) (transfers : list (gmap string pyval))
  : result balance_dict :=
  match transfers with
  | [] => Ok balances
  | transfer :: rest =>
      try! balances' := loop_body balances transfer in accumulate balances' rest
  end.

(** The comprehension that ends the function. *)
Definition positive_only (balances : balance_dict) : balance_dict :=
  filter (fun '(addr, balance) => 0 < balance) balances.

Definition calculate_token_balances (transfers : list (gmap string pyval))
  : result balance_dict :=
  try! balances := accumulate [] transfers in
  Ok (positive_only balances).

(** A record with the three fields. *)
Definition transfer_of (from to value : pyval) : gmap string pyval :=
  <["from" := from]> (<["to" := to]> (<["value" := value]> ∅)).

(** ** The loop as a sum of per-transfer deltas

    What one transfer does to the dictionary does not depend on the
    dictionary: it is a list of at most two signed amounts, or an
    exception. *)

Definition deltas_of (transfer : gmap string pyval) : result (list (string * Z)) :=
  try! from_addr := lower_method (get transfer "from" (PStr "")) in
  try! to_addr := lower_method (get transfer "to" (PStr "")) in
  try! converted := convert_value (get transfer "value" (PStr "0x0")) in
  match converted with
  | None => Ok []
  | Some value =>
      Ok ((if tracked from_addr then [(from_addr, - value)] else []) ++
          (if tracked to_addr then [(to_addr, value)] else []))%list
  end.

Fixpoint all_deltas (transfers : list (gmap string pyval)) : result (list (string * Z)) :=
  match transfers with
  | [] => Ok []
  | transfer :: rest =>
      try! ds := deltas_of transfer in
      try! ds' := all_deltas rest in
      Ok (ds ++ ds')%list
  end.

Definition apply_deltas (balances : balance_dict) (ds : list (string * Z)) : balance_dict :=
  fold_left (fun b '(k, x) => iadd b k x) ds balances.

(** The net amount the deltas give an address, and whether they name it. *)
Definition net (ds : list (string * Z)) (k : string) : Z :=
  fold_right (fun '(k', x) acc => if String.eqb k' k then x + acc else acc) 0 ds.

Definition touched (ds : list (string * Z)) (k : string) : bool :=
  existsb (fun '(k', _) => String.eqb k' k) ds.

(** A key the loop writes is a lower-cased string that is neither empty
    nor the zero address. *)
Definition holder_key (k : string) : Prop :=
  tracked k = true /\ PyStr.lower k = k.


(** ** Vocabulary of the properties *)

(** The result of the function on two lists agrees: the same mapping, by
    Python's [==] and entry by entry, or an exception on both sides. *)
Definition same_mapping (r r' : result balance_dict) : Prop :=
  match r, r' with
  | Ok d, Ok d' => dict_eqb d d' = true /\ forall a, dict_get d a = dict_get d' a
  | Raise _, Raise _ => True
  | _, _ => False
  end.

(** The field [key] of a record is missing or is the empty string. *)
Definition absent_or_empty (transfer : gmap string pyval) (key : string) : Prop :=
  transfer !! key = None \/ transfer !! key = Some (PStr "").

(** Both address fields of a record are strings, or missing. *)
Definition addresses_are_strings (transfer : gmap string pyval) : bool :=
  is_ok (lower_method (get transfer "from" (PStr "")))
  && is_ok (lower_method (get transfer "to" (PStr ""))).


(** A record on which the loop body does not raise: the address fields are
    strings or missing, and the value is not an infinite float. *)
Definition well_formed (transfer : gmap string pyval) : bool :=
  addresses_are_strings transfer
  && match get transfer "value" (PStr "0x0") with
     | PFloat (S754_infinity _) => false
     | _ => true
     end.

(** ** The transfer fetcher

    One POST to the API either fails in transport (no connection, time-out,
    error status, undecodable body) or returns a JSON-RPC envelope with an
    optional [error], of which the code reads the message, and an optional
    [result]. The [result] of [alchemy_getAssetTransfers] has the fields
    [transfers] and [pageKey]. *)

Record transfers_result : Type := {
  transfers_field : option (list (gmap string pyval));
  pageKey_field : option string
}.

Inductive http_outcome : Type :=
  | RequestFailed (msg : string)
  | Reply (error : option string) (result : option transfers_result).

(** The parameters of [alchemy_getAssetTransfers]. *)
Record transfer_params : Type := {
  category : list string;
  contractAddresses : list string;
  withMetadata : bool;
  excludeZeroValue : bool;
  maxCount : string;
  pageKey : option string
}.

(** The network at one call: what a POST of a method and its parameters
    comes to. *)
Abbreviation endpoint := (string -> transfer_params -> http_outcome).

(** [data.get("result", {})]: the empty object has neither field. *)
Definition empty_result : transfers_result :=
  {| transfers_field := None; pageKey_field := None |}.

(** [AlchemyClient._make_request]. *)
Definition _make_request (post : endpoint) (method : string) (params : transfer_params)
  : result transfers_result :=
  match post method params with
  | RequestFailed msg => Raise (Exception ("Failed to connect to Alchemy API: " ++ msg))
  | Reply (Some message) _ => Raise (Exception ("Alchemy API error: " ++ message))
  | Reply None (Some r) => Ok r
  | Reply None None => Ok empty_result
  end.

(** Truth value of a page key: [None] and [""] are false. *)
Definition page_key_truthy (page_key : option string) : bool :=
  match page_key with
  | Some s => PyStr.truthy s
  | None => false
  end.

Definition is_empty {A : Type} (l : list A) : bool :=
  match l with [] => true | _ => false end.

(** The parameters of one turn of the loop; [hex(1000)] is ["0x3e8"]. *)
Definition page_params (contract_address : string) (page_key : option string)
  : transfer_params :=
  {| category := ["erc20"];
     contractAddresses := [contract_address];
     withMetadata := true;
     excludeZeroValue := true;
     maxCount := "0x3e8";
     pageKey := if page_key_truthy page_key then page_key else None |}.

(** [AlchemyClient.get_asset_transfers]. The API is the list of the
    endpoints that answer the successive requests; each turn of the
    [while True] loop consumes one, and the function has no value ([None])
    if the loop asks for more answers than the list holds. *)
Fixpoint fetch_pages (api : list endpoint) (contract_address : string)
    (transfers : list (gmap string pyval)) (page_key : option string)
  : option (list (gmap string pyval)) :=
  match api with
  | [] => None
  | post :: api' =>
      let params := page_params contract_address page_key in
      match _make_request post "alchemy_getAssetTransfers" params with
      | Ok result =>
          let batch_transfers :=
            match transfers_field result with Some l => l | None => [] end in
          let transfers := (transfers ++ batch_transfers)%list in
          let page_key := pageKey_field result in
          if negb (page_key_truthy page_key) || is_empty batch_transfers
          then Some transfers
          else fetch_pages api' contract_address transfers page_key
      | Raise _ => Some transfers
      end
  end.

Definition get_asset_transfers (api : list endpoint) (contract_address : string)
  : option (list (gmap string pyval)) :=
  fetch_pages api contract_address [] None.

(** ** The holder ranker *)

(** [sorted(items, key=lambda x: x[1], reverse=True)]: the stable sort in
    descending order of balance; entries of equal balance keep the order
    they had. *)
Fixpoint insert_desc (x : string * Z) (l : list (string * Z)) : list (string * Z) :=
  match l with
  | [] => [x]
  | y :: l' => if x.2 <? y.2 then y :: insert_desc x l' else x :: l
  end.

Fixpoint sorted_desc (l : list (string * Z)) : list (string * Z) :=
  match l with
  | [] => []
  | x :: l' => insert_desc x (sorted_desc l')
  end.

(** [l[:n]]: a negative [n] counts from the end. *)
Definition slice_to {A : Type} (l : list A) (n : Z) : list A :=
  if n <? 0 then firstn (Z.to_nat (Z.of_nat (length l) + n)) l
  else firstn (Z.to_nat n) l.

(** The ranking step of [get_top_holders], from the balance mapping on. *)
Definition rank_top (balances : balance_dict) (top_n : Z) : list (string * Z) :=
  if is_empty balances then []
  else slice_to (sorted_desc balances) top_n.

(** [AlchemyClient.get_top_holders]; the [except] clause logs and raises the
    exception again. *)
Definition get_top_holders (api : list endpoint) (contract_address : string) (top_n : Z)
  : option (result (list (string * Z))) :=
  match get_asset_transfers api contract_address with
  | None => None
  | Some transfers =>
      Some (if is_empty transfers then Ok []
            else
              try! balances := calculate_token_balances transfers in
              Ok (rank_top balances top_n))
  end.

(** An endpoint that answers every request with the same outcome. *)
Definition answers (outcome : http_outcome) : endpoint := fun _ _ => outcome.

(** A page that lets the loop go on: a reply without error whose batch is
    not empty and whose page key is not empty. *)
Definition full_page (batch : list (gmap string pyval)) (key : string) : endpoint :=
  answers (Reply None (Some {| transfers_field := Some batch; pageKey_field := Some key |})).

(** The page key with which the request after [pages] is sent. *)
Definition next_key (pages : list (list (gmap string pyval) * string)) : option string :=
  match pages with
  | [] => None
  | _ => Some (List.last pages ([], "")).2
  end.

Definition descending (x y : string * Z) : Prop := y.2 <= x.2.

(** ** [is_valid_address]

    The same method in [AlchemyClient] and in [TokenHolderBot]. *)

Definition is_valid_address (address : pyval) : bool :=
  match address with
  | PStr s =>
      if negb (PyStr.truthy s) then false
      else
        let address := if PyStr.startswith s "0x" then PyStr.drop 2 s else s in
        if negb (PyStr.len address =? 40) then false
        else
          match int_of_string address 16 with
          | Ok _ => true
          | Raise _ => false
          end
  | PNone | PBool _ | PInt _ | PFloat _ | PList | PDict => false
  end.

(** What the comment in the method describes: forty hexadecimal digits,
    after an optional [0x]. *)
Definition forty_hex_digits (s : string) : bool :=
  let body := if PyStr.startswith s "0x" then PyStr.drop 2 s else s in
  (PyStr.len body =? 40) && PyStr.all_digits 16 body.

(** ** Python floats and [format_balance] *)

Module PyFloat.

Definition prec : Z := 53.
Definition emax : Z := 1024.

(** [float(z)]: the nearest binary64 value, ties to even; an integer beyond
    the range of the floats has none. *)
Definition of_int (z : Z) : result spec_float :=
  match binary_normalize prec emax z 0 false with
  | S754_infinity _ => Raise OverflowError
  | f => Ok f
  end.

(** An integer as a mantissa with exponent 0, the form in which the
    division below takes its operands. *)
Definition exact (z : Z) : spec_float :=
  match z with
  | Z0 => S754_zero false
  | Zpos p => S754_finite false p 0
  | Zneg p => S754_finite true p 0
  end.

(** [a / b] on two integers: the correctly rounded quotient.
    [b] is not zero where the code divides. *)
Definition int_truediv (a b : Z) : result spec_float :=
  match SFdiv prec emax (exact a) (exact b) with
  | S754_infinity _ => Raise OverflowError
  | q => Ok q
  end.

(** [x / k] on a float and a small integer [k], which converts exactly. *)
Definition float_truediv (x : spec_float) (k : Z) : spec_float :=
  SFdiv prec emax x (binary_normalize prec emax k 0 false).

(** [x >= k] on a float and a small integer. *)
Definition ge_int (x : spec_float) (k : Z) : bool :=
  SFleb (binary_normalize prec emax k 0 false) x.

Definition round_half_even (num den : Z) : Z :=
  let q := num / den in
  let r := num mod den in
  match 2 * r ?= den with
  | Lt => q
  | Gt => q + 1
  | Eq => if Z.even q then q else q + 1
  end.

Definition decimal (n : Z) : string :=
  DecimalString.NilZero.string_of_uint (N.to_uint (Z.to_N n)).

Fixpoint zeros (n : nat) : string :=
  match n with
  | O => ""
  | S n' => String "0" (zeros n')
  end.

(** The digits of [n / 10^p] with [p] digits after the point. *)
Definition fixed_point (p : nat) (n : Z) : string :=
  let digits := decimal n in
  let digits := zeros (S p - String.length digits) ++ digits in
  let k := (String.length digits - p)%nat in
  substring 0 k digits ++ "." ++ substring k p digits.

Definition sign_str (s : bool) : string := if s then "-" else "".

(** [f"{x:.pf}"] for [p >= 1]: the decimal with [p] digits after the point
    nearest to the exact value of [x], ties to even. *)
Definition format_f (p : nat) (x : spec_float) : string :=
  match x with
  | S754_nan => "nan"
  | S754_infinity s => sign_str s ++ "inf"
  | S754_zero s => sign_str s ++ fixed_point p 0
  | S754_finite s m e =>
      let scaled :=
        if 0 <=? e then Z.pos m * 2 ^ e * 10 ^ Z.of_nat p
        else round_half_even (Z.pos m * 10 ^ Z.of_nat p) (2 ^ (- e)) in
      sign_str s ++ fixed_point p scaled
  end.

End PyFloat.

(** [s.rstrip(c)] for a single character. *)
Fixpoint rstrip (c : ascii) (s : string) : string :=
  match s with
  | EmptyString => EmptyString
  | String a s' =>
      match rstrip c s' with
      | EmptyString => if Ascii.eqb a c then EmptyString else String a EmptyString
      | t => String a t
      end
  end.

(** A Python number: [readable_balance] is an [int] on one branch and a
    [float] on the other. *)
Inductive pynum : Type :=
  | NInt (z : Z)
  | NFloat (f : spec_float).

Definition num_ge (x : pynum) (k : Z) : bool :=
  match x with
  | NInt z => k <=? z
  | NFloat f => PyFloat.ge_int f k
  end.

Definition num_truediv (x : pynum) (k : Z) : result spec_float :=
  match x with
  | NInt z => PyFloat.int_truediv z k
  | NFloat f => Ok (PyFloat.float_truediv f k)
  end.

(** [f"{x:.pf}"] on a number: an [int] is converted to a float first. *)
Definition num_format_f (p : nat) (x : pynum) : result string :=
  match x with
  | NInt z => try! f := PyFloat.of_int z in Ok (PyFloat.format_f p f)
  | NFloat f => Ok (PyFloat.format_f p f)
  end.

(** The first statement of [format_balance]; [decimals] is the number of
    decimals of the token, an unsigned integer. *)
Definition readable_balance (balance : Z) (decimals : N) : result pynum :=
  if balance <? 10 ^ 12 then Ok (NInt balance)
  else try! q := PyFloat.int_truediv balance (10 ^ Z.of_N decimals) in Ok (NFloat q).

(** [AlchemyClient.format_balance]. *)
Definition format_balance (balance : Z) (decimals : N) : result string :=
  try! readable_balance := readable_balance balance decimals in
  if num_ge readable_balance 1000000 then
    try! q := num_truediv readable_balance 1000000 in
    Ok (PyFloat.format_f 2 q ++ "M")
  else if num_ge readable_balance 1000 then
    try! q := num_truediv readable_balance 1000 in
    Ok (PyFloat.format_f 2 q ++ "K")
  else
    try! s := num_format_f 4 readable_balance in
    Ok (rstrip "." (rstrip "0" s)).

(** ** Vocabulary of the further properties of the reconstruction *)

(** [sum(balances.values())]. *)
Definition total (d : balance_dict) : Z := foldr Z.add 0 d.*2.

(** What one transfer adds to the sum of the balances: the amount when only
    the receiver holds a balance (a mint), its opposite when only the sender
    does (a burn), nothing when both or none do, and nothing when the
    transfer is skipped. *)
Definition supply_change (transfer : gmap string pyval) : Z :=
  match lower_method (get transfer "from" (PStr "")),
        lower_method (get transfer "to" (PStr "")),
        convert_value (get transfer "value" (PStr "0x0")) with
  | Ok from_addr, Ok to_addr, Ok (Some value) =>
      (if tracked to_addr then value else 0) - (if tracked from_addr then value else 0)
  | _, _, _ => 0
  end.

(** ** Vocabulary of the further properties of the fetcher *)

(** [result.get("transfers", [])]. *)
Definition batch_of (r : transfers_result) : list (gmap string pyval) :=
  match transfers_field r with
  | Some l => l
  | None => []
  end.

(** A reply that ends the pagination: no page key, or an empty batch. *)
Definition last_page (r : transfers_result) : bool :=
  negb (page_key_truthy (pageKey_field r)) || is_empty (batch_of r).

(** An endpoint that gives its answer only to the request a page of the
    listing is asked with: the method, one category, the contract, the two
    flags, a page size of 1000 and the page key [page_key]; any other
    request fails. *)
Definition expecting (contract_address : string) (page_key : option string)
    (outcome : http_outcome) : endpoint :=
  fun method params =>
    if bool_decide (method = "alchemy_getAssetTransfers"
                    /\ category params = ["erc20"]
                    /\ contractAddresses params = [contract_address]
                    /\ withMetadata params = true
                    /\ excludeZeroValue params = true
                    /\ maxCount params = "0x3e8"
                    /\ pageKey params = page_key)
    then outcome
    else RequestFailed "unexpected request".

(** The endpoints of successive pages, each expecting the page key that the
    page before returned; the first expects [prev]. *)
Fixpoint expecting_pages (contract_address : string) (prev : option string)
    (pages : list (list (gmap string pyval) * string)) : list endpoint :=
  match pages with
  | [] => []
  | (batch, key) :: pages' =>
      expecting contract_address prev
        (Reply None (Some {| transfers_field := Some batch; pageKey_field := Some key |}))
      :: expecting_pages contract_address (Some key) pages'
  end.

(** An endpoint at which the loop stops whatever it is asked: it fails, or
    its reply is a last page. *)
Definition stops_the_loop (post : endpoint) : Prop :=
  forall params,
    match _make_request post "alchemy_getAssetTransfers" params with
    | Ok r => last_page r = true
    | Raise _ => True
    end.

(** ** [AlchemyClient.shorten_address] *)

(** [s[:n]] for [n >= 0]. *)
Fixpoint str_take (n : nat) (s : string) : string :=
  match n, s with
  | O, _ => EmptyString
  | S n', String c s' => String c (str_take n' s')
  | S _, EmptyString => EmptyString
  end.

(** [s[-n:]] for [n > 0]: the last [n] characters, or all of [s] when it
    has fewer. *)
Definition str_suffix (n : nat) (s : string) : string :=
  PyStr.drop (String.length s - n) s.

Definition shorten_address (address : string) : string :=
  if PyStr.len address <? 10 then address
  else str_take 6 address ++ "..." ++ str_suffix 4 address.

(** ** Examples of [int()] on strings *)

Example int_of_str_base16 :
  map (fun s => PyStr.int_of_str s 16)
    ["0x1a"; "0x_1a"; "0x__1a"; "0x1_a"; "0x1a_"; "0x"; "0x 1"; "0x+1"; "0x-1";
     "0x1a "; "0X1a"; "0x0x1"; "0x1 2"; "0"; "0b1"; "-0x1a"; "0x1G"; "z"; "-"; "1_a"]
  = [Some 26; Some 26; None; Some 26; None; None; None; None; None;
     Some 26; Some 26; None; None; Some 0; Some 177; Some (-26); None; None; None; Some 26].
Proof. vm_compute. reflexivity. Qed.

Example int_of_str_base10 :
  map (fun s => PyStr.int_of_str s 10)
    ["26"; "+26"; "-26"; " 26 "; "2_6"; "_26"; "26_"; "2__6"; ""; "+"; "- 1";
     "007"; "1a"; "0x1a"; "2 6"; "+-1"; "1e3"; "1.0"; "0_0"; "+_1"]
  = [Some 26; Some 26; Some (-26); Some 26; Some 26; None; None; None; None; None; None;
     Some 7; None; None; None; None; None; None; Some 0; None].
Proof. vm_compute. reflexivity. Qed.
Example calculate_token_balances_scenario : calculate_token_balances
  [transfer_of (PStr ZERO_ADDRESS) (PStr "0xA") (PStr "0x64");
   transfer_of (PStr "0xa") (PStr "0xB") (PStr "0x32")] = Ok [("0xa", 50); ("0xb", 50)].
Proof. vm_compute. reflexivity. Qed.

(** ** Facts about the balance dictionary *)

Section dict_facts.
Implicit Types (d : balance_dict) (k : string) (v : Z).

Lemma dict_get_set d k v k' :
  dict_get (dict_set d k v) k' = if String.eqb k k' then Some v else dict_get d k'.
Proof.
  induction d as [|[k0 v0] d IH]; simpl.
  - destruct (String.eqb_spec k k'); reflexivity.
  - destruct (String.eqb_spec k0 k) as [->|Hne]; simpl.
    + destruct (String.eqb_spec k k'); reflexivity.
    + rewrite IH. destruct (String.eqb_spec k0 k') as [->|]; [|reflexivity].
      destruct (String.eqb_spec k k'); congruence.
Qed.

Lemma dict_get_None d k : dict_get d k = None <-> k ∉ d.*1.
Proof.
  induction d as [|[k0 v0] d IH]; simpl.
  - split; [intros _; apply not_elem_of_nil | reflexivity].
  - rewrite not_elem_of_cons. destruct (String.eqb_spec k0 k) as [->|Hne].
    + split; [discriminate | intros [[] _]; reflexivity].
    + rewrite IH. split; [intros H; split; [congruence | exact H] | intros [_ H]; exact H].
Qed.

Lemma dict_get_Some d k v : NoDup d.*1 -> dict_get d k = Some v <-> (k, v) ∈ d.
Proof.
  induction d as [|[k0 v0] d IH]; simpl; intros Hnd.
  - split; [discriminate | intros H; inversion H].
  - apply NoDup_cons in Hnd as [Hk0 Hnd]. rewrite elem_of_cons.
    destruct (String.eqb_spec k0 k) as [->|Hne].
    + split.
      * intros [= ->]. left; reflexivity.
      * intros [[= ->]|Hin]; [reflexivity|].
        exfalso. apply Hk0. apply list_elem_of_fmap. exists (k, v). split; [reflexivity | exact Hin].
    + rewrite (IH Hnd). split; [intros H; right; exact H|].
      intros [[= -> ->]|Hin]; [congruence | exact Hin].
Qed.

Lemma dict_set_keys d k v :
  (dict_set d k v).*1 =
    match dict_get d k with Some _ => d.*1 | None => (d.*1 ++ [k])%list end.
Proof.
  induction d as [|[k0 v0] d IH]; [reflexivity|]. cbn [dict_set dict_get].
  destruct (String.eqb_spec k0 k) as [->|Hne]; [reflexivity|].
  rewrite !fmap_cons, IH. destruct (dict_get d k); reflexivity.
Qed.

Lemma dict_set_NoDup d k v : NoDup d.*1 -> NoDup (dict_set d k v).*1.
Proof.
  intros Hnd. rewrite dict_set_keys. destruct (dict_get d k) eqn:Hg; [exact Hnd|].
  apply NoDup_app. split; [exact Hnd|]. split.
  - intros x Hx Hx'. apply list_elem_of_singleton in Hx' as ->.
    apply dict_get_None in Hg. contradiction.
  - apply NoDup_singleton.
Qed.

Lemma positive_only_cons k v d :
  positive_only ((k, v) :: d) =
    if 0 <? v then (k, v) :: positive_only d else positive_only d.
Proof.
  unfold positive_only. rewrite filter_cons.
  destruct (decide (0 < v)), (Z.ltb_spec 0 v); try lia; reflexivity.
Qed.

Lemma positive_only_elem d k v : (k, v) ∈ positive_only d <-> (k, v) ∈ d /\ 0 < v.
Proof. unfold positive_only. rewrite list_elem_of_filter. tauto. Qed.

Lemma positive_only_key_elem d k : k ∈ (positive_only d).*1 -> k ∈ d.*1.
Proof.
  intros Hin. apply list_elem_of_fmap in Hin as [[k1 v1] [-> Hin]].
  apply positive_only_elem in Hin as [Hin _].
  apply list_elem_of_fmap. exists (k1, v1). split; [reflexivity | exact Hin].
Qed.

Lemma positive_only_keys_NoDup d : NoDup d.*1 -> NoDup (positive_only d).*1.
Proof.
  induction d as [|[k0 v0] d IH]; intros Hnd; [constructor|].
  rewrite fmap_cons in Hnd. apply NoDup_cons in Hnd as [Hk0 Hnd].
  rewrite positive_only_cons. destruct (0 <? v0); [|auto].
  rewrite fmap_cons. apply NoDup_cons. split; [|auto].
  intros Hin. apply Hk0. apply positive_only_key_elem. exact Hin.
Qed.

Lemma dict_get_positive_only d k :
  NoDup d.*1 ->
  dict_get (positive_only d) k =
    match dict_get d k with
    | Some v => if 0 <? v then Some v else None
    | None => None
    end.
Proof.
  induction d as [|[k0 v0] d IH]; intros Hnd; [reflexivity|].
  rewrite fmap_cons in Hnd. apply NoDup_cons in Hnd as [Hk0 Hnd].
  rewrite positive_only_cons. cbn [dict_get].
  destruct (String.eqb_spec k0 k) as [->|Hne].
  - destruct (0 <? v0); cbn [dict_get].
    + rewrite String.eqb_refl. reflexivity.
    + apply dict_get_None. intros Hin. apply Hk0, positive_only_key_elem, Hin.
  - destruct (0 <? v0); cbn [dict_get]; [|auto].
    destruct (String.eqb_spec k0 k); [congruence | auto].
Qed.
End dict_facts.

(** ** The loop as a sum of per-transfer deltas *)

Section deltas_facts.
Implicit Types (b : balance_dict) (ds : list (string * Z)) (k : string).

Lemma isub_iadd b k v : isub b k v = iadd b k (- v).
Proof. unfold isub, iadd. f_equal. Qed.

Lemma loop_body_deltas b t :
  loop_body b t = try! ds := deltas_of t in Ok (apply_deltas b ds).
Proof.
  unfold loop_body, deltas_of.
  destruct (lower_method _) as [from_addr|]; [|reflexivity]. cbn [bind].
  destruct (lower_method _) as [to_addr|]; [|reflexivity]. cbn [bind].
  destruct (convert_value _) as [[value|]|]; try reflexivity. cbn [bind].
  destruct (tracked from_addr), (tracked to_addr); cbn; rewrite ?isub_iadd; reflexivity.
Qed.

Lemma apply_deltas_app b ds ds' :
  apply_deltas b (ds ++ ds') = apply_deltas (apply_deltas b ds) ds'.
Proof. apply fold_left_app. Qed.

Lemma accumulate_deltas b l :
  accumulate b l = try! ds := all_deltas l in Ok (apply_deltas b ds).
Proof.
  revert b. induction l as [|t l IH]; intros b; [reflexivity|].
  cbn [accumulate all_deltas]. rewrite loop_body_deltas.
  destruct (deltas_of t) as [ds|]; [|reflexivity]. cbn [bind].
  rewrite IH. destruct (all_deltas l) as [ds'|]; [|reflexivity]. cbn [bind].
  rewrite apply_deltas_app. reflexivity.
Qed.

Lemma apply_deltas_NoDup b ds : NoDup b.*1 -> NoDup (apply_deltas b ds).*1.
Proof.
  revert b. induction ds as [|[k x] ds IH]; intros b Hnd; [exact Hnd|].
  cbn. apply IH. apply dict_set_NoDup. exact Hnd.
Qed.

Lemma getitem_iadd b k x k' :
  getitem (iadd b k x) k' = if String.eqb k k' then getitem b k + x else getitem b k'.
Proof.
  unfold getitem at 1, iadd. rewrite dict_get_set.
  destruct (String.eqb k k'); reflexivity.
Qed.

Lemma net_untouched ds k : touched ds k = false -> net ds k = 0.
Proof.
  induction ds as [|[k0 x] ds IH]; [reflexivity|].
  cbn [touched existsb net fold_right]. fold (touched ds k). fold (net ds k).
  destruct (String.eqb k0 k); cbn [orb]; [discriminate | exact IH].
Qed.

(** The dictionary after the loop: an address the deltas name holds its
    former amount plus its net amount; any other entry is as before. *)
Lemma dict_get_apply_deltas b ds k :
  dict_get (apply_deltas b ds) k =
    if touched ds k then Some (getitem b k + net ds k) else dict_get b k.
Proof.
  revert b. induction ds as [|[k0 x] ds IH]; intros b; [reflexivity|].
  cbn [apply_deltas fold_left touched existsb net fold_right].
  fold (apply_deltas (iadd b k0 x) ds). fold (touched ds k). fold (net ds k).
  rewrite IH, getitem_iadd. unfold iadd. rewrite dict_get_set.
  destruct (String.eqb_spec k0 k) as [->|Hne]; cbn [orb].
  - destruct (touched ds k) eqn:Ht; f_equal; [lia|].
    rewrite (net_untouched _ _ Ht). lia.
  - reflexivity.
Qed.

Lemma net_cons k0 x ds k :
  net ((k0, x) :: ds) k = if String.eqb k0 k then x + net ds k else net ds k.
Proof. reflexivity. Qed.

Lemma touched_cons k0 x ds k :
  touched ((k0, x) :: ds) k = String.eqb k0 k || touched ds k.
Proof. reflexivity. Qed.

Lemma net_perm ds ds' k : ds ≡ₚ ds' -> net ds k = net ds' k.
Proof.
  intros Hp.
  induction Hp as [|[k0 x] ds1 ds2 _ IH|[k0 x] [k1 y] ds1|ds1 ds2 ds3 _ IH _ IH'].
  - reflexivity.
  - rewrite !net_cons, IH. reflexivity.
  - rewrite !net_cons. destruct (String.eqb k0 k), (String.eqb k1 k); lia.
  - congruence.
Qed.

Lemma touched_perm ds ds' k : ds ≡ₚ ds' -> touched ds k = touched ds' k.
Proof.
  intros Hp.
  induction Hp as [|[k0 x] ds1 ds2 _ IH|[k0 x] [k1 y] ds1|ds1 ds2 ds3 _ IH _ IH'].
  - reflexivity.
  - rewrite !touched_cons, IH. reflexivity.
  - rewrite !touched_cons. destruct (String.eqb k0 k), (String.eqb k1 k); reflexivity.
  - congruence.
Qed.

Lemma net_app ds ds' k : net (ds ++ ds') k = net ds k + net ds' k.
Proof.
  induction ds as [|[k0 x] ds IH]; [reflexivity|].
  rewrite <- app_comm_cons, !net_cons, IH. destruct (String.eqb k0 k); lia.
Qed.

Lemma touched_app ds ds' k : touched (ds ++ ds') k = touched ds k || touched ds' k.
Proof. apply existsb_app. Qed.
End deltas_facts.

(** ** Keys of the result *)

Section key_facts.
Implicit Types (b : balance_dict) (ds : list (string * Z)) (k : string).

Lemma lower_char_idem c : PyStr.lower_char (PyStr.lower_char c) = PyStr.lower_char c.
Proof. destruct c as [[] [] [] [] [] [] [] []]; reflexivity. Qed.

Lemma lower_idem s : PyStr.lower (PyStr.lower s) = PyStr.lower s.
Proof.
  induction s as [|c s IH]; [reflexivity|].
  cbn [PyStr.lower]. rewrite lower_char_idem, IH. reflexivity.
Qed.

Lemma lower_method_Ok v s : lower_method v = Ok s -> PyStr.lower s = s.
Proof. destruct v; try discriminate. intros [= <-]. apply lower_idem. Qed.

Lemma deltas_of_keys t ds k x :
  deltas_of t = Ok ds -> (k, x) ∈ ds -> holder_key k.
Proof.
  unfold deltas_of.
  destruct (lower_method (get t "from" _)) as [from_addr|] eqn:Hf; [|discriminate].
  destruct (lower_method (get t "to" _)) as [to_addr|] eqn:Ht; [|discriminate].
  cbn [bind]. destruct (convert_value _) as [[value|]|]; cbn [bind]; try discriminate.
  - intros [= <-] Hin. apply elem_of_app in Hin as [Hin|Hin].
    + destruct (tracked from_addr) eqn:Htr; [|inversion Hin].
      apply list_elem_of_singleton in Hin as [= -> ->].
      split; [exact Htr | eapply lower_method_Ok, Hf].
    + destruct (tracked to_addr) eqn:Htr; [|inversion Hin].
      apply list_elem_of_singleton in Hin as [= -> ->].
      split; [exact Htr | eapply lower_method_Ok, Ht].
  - intros [= <-] Hin. inversion Hin.
Qed.

Lemma all_deltas_keys l ds k x :
  all_deltas l = Ok ds -> (k, x) ∈ ds -> holder_key k.
Proof.
  revert ds. induction l as [|t l IH]; intros ds.
  - intros [= <-] Hin. inversion Hin.
  - cbn [all_deltas]. destruct (deltas_of t) as [d1|] eqn:H1; [|discriminate].
    cbn [bind]. destruct (all_deltas l) as [d2|]; [|discriminate].
    cbn [bind]. intros [= <-] Hin. apply elem_of_app in Hin as [Hin|Hin].
    + eapply deltas_of_keys; eauto.
    + eapply IH; eauto.
Qed.

Lemma touched_elem ds k : touched ds k = true <-> exists x, (k, x) ∈ ds.
Proof.
  induction ds as [|[k0 x0] ds IH].
  - split; [discriminate | intros [x Hin]; inversion Hin].
  - rewrite touched_cons, orb_true_iff, IH. split.
    + intros [Heq|[x Hin]].
      * apply String.eqb_eq in Heq as ->. exists x0. left.
      * exists x. right. exact Hin.
    + intros [x Hin]. apply elem_of_cons in Hin as [[= -> ->]|Hin].
      * left. apply String.eqb_refl.
      * right. exists x. exact Hin.
Qed.

(** The mapping returned, entry by entry. *)
Lemma calculate_token_balances_spec l d :
  calculate_token_balances l = Ok d ->
  exists ds, all_deltas l = Ok ds /\ accumulate [] l = Ok (apply_deltas [] ds) /\
    d = positive_only (apply_deltas [] ds) /\ NoDup d.*1 /\
    forall a, dict_get d a =
                if touched ds a && (0 <? net ds a) then Some (net ds a) else None.
Proof.
  unfold calculate_token_balances. rewrite accumulate_deltas.
  destruct (all_deltas l) as [ds|]; [|discriminate]. cbn [bind].
  intros [= <-]. exists ds.
  assert (Hnd : NoDup (apply_deltas [] ds).*1) by (apply apply_deltas_NoDup; constructor).
  split; [reflexivity|]. split; [reflexivity|]. split; [reflexivity|].
  split; [apply positive_only_keys_NoDup, Hnd|].
  intros a. rewrite (dict_get_positive_only _ _ Hnd), dict_get_apply_deltas.
  destruct (touched ds a); cbn [andb dict_get]; [|reflexivity].
  change (getitem [] a) with 0. rewrite Z.add_0_l. reflexivity.
Qed.

Lemma dict_eqb_true (a b : balance_dict) :
  NoDup a.*1 -> NoDup b.*1 ->
  (forall k, dict_get a k = dict_get b k) -> dict_eqb a b = true.
Proof.
  intros Ha Hb Heq.
  assert (Hin : forall k v, (k, v) ∈ a <-> (k, v) ∈ b).
  { intros k v. rewrite <- !dict_get_Some by assumption. rewrite Heq. reflexivity. }
  assert (Hp : a ≡ₚ b).
  { apply NoDup_Permutation; [eapply NoDup_fmap_1, Ha | eapply NoDup_fmap_1, Hb |].
    intros [k v]. apply Hin. }
  unfold dict_eqb. apply andb_true_iff. split.
  - apply Nat.eqb_eq. apply Permutation_length, Hp.
  - apply forallb_forall. intros [k v] Hkv.
    apply list_elem_of_In, Hin, dict_get_Some in Hkv; [|exact Hb].
    rewrite Hkv. apply Z.eqb_refl.
Qed.

Lemma all_deltas_perm l l' :
  l ≡ₚ l' ->
  match all_deltas l, all_deltas l' with
  | Ok ds, Ok ds' => ds ≡ₚ ds'
  | Raise _, Raise _ => True
  | _, _ => False
  end.
Proof.
  intros Hp. induction Hp as [|t l1 l2 _ IH|t u l1|l1 l2 l3 _ IH _ IH'].
  - apply perm_nil.
  - cbn [all_deltas]. destruct (deltas_of t) as [d|]; cbn [bind]; [|exact I].
    destruct (all_deltas l1), (all_deltas l2); cbn [bind]; try exact IH.
    apply Permutation_app_head, IH.
  - cbn [all_deltas].
    destruct (deltas_of t) as [d1|], (deltas_of u) as [d2|]; cbn [bind]; try exact I.
    destruct (all_deltas l1); cbn [bind]; [|exact I].
    rewrite !app_assoc. apply Permutation_app_tail, Permutation_app_comm.
  - destruct (all_deltas l1), (all_deltas l2), (all_deltas l3);
      try contradiction; try exact I.
    etransitivity; eassumption.
Qed.
End key_facts.

(** ** Properties of [calculate_token_balances] *)

(** C1. The function does not depend on the order of the transfers: on a
    permutation of the list it returns an identical mapping (equal by
    Python's [==], and equal at every address); if it raises on one order
    it raises on the other. *)
Theorem calculate_token_balances_permutation (l l' : list (gmap string pyval)) :
  l ≡ₚ l' ->
  same_mapping (calculate_token_balances l) (calculate_token_balances l').
Proof.
  intros Hp. pose proof (all_deltas_perm l l' Hp) as Hds.
  unfold same_mapping.
  destruct (calculate_token_balances l) as [d|e] eqn:Hl,
           (calculate_token_balances l') as [d'|e'] eqn:Hl'.
  - apply calculate_token_balances_spec in Hl as (ds & Hd & _ & _ & Hnd & Hget).
    apply calculate_token_balances_spec in Hl' as (ds' & Hd' & _ & _ & Hnd' & Hget').
    rewrite Hd, Hd' in Hds.
    assert (Heq : forall a, dict_get d a = dict_get d' a).
    { intros a. rewrite Hget, Hget', (net_perm _ _ a Hds), (touched_perm _ _ a Hds).
      reflexivity. }
    split; [apply dict_eqb_true; assumption | exact Heq].
  - apply calculate_token_balances_spec in Hl as (ds & Hd & _).
    unfold calculate_token_balances in Hl'. rewrite accumulate_deltas in Hl'.
    rewrite Hd in Hds. destruct (all_deltas l'); [discriminate | exact Hds].
  - apply calculate_token_balances_spec in Hl' as (ds' & Hd' & _).
    unfold calculate_token_balances in Hl. rewrite accumulate_deltas in Hl.
    rewrite Hd' in Hds. destruct (all_deltas l); [discriminate | exact Hds].
  - exact I.
Qed.

Lemma calculate_token_balances_permutation_witness :
  same_mapping
    (calculate_token_balances
       [transfer_of (PStr ZERO_ADDRESS) (PStr "0xA") (PStr "0x64");
        transfer_of (PStr "0xa") (PStr "0xB") (PStr "0x32")])
    (calculate_token_balances
       [transfer_of (PStr "0xa") (PStr "0xB") (PStr "0x32");
        transfer_of (PStr ZERO_ADDRESS) (PStr "0xA") (PStr "0x64")]).
Proof. apply calculate_token_balances_permutation. apply perm_swap. Defined.

(** C2. Every entry of the returned mapping has a strictly positive
    balance, and an address whose accumulated balance, the one the loop left
    in [balances], is zero or negative is not a key of it. *)
Theorem calculate_token_balances_positive (l : list (gmap string pyval)) (d : balance_dict) :
  calculate_token_balances l = Ok d ->
  (forall a v, (a, v) ∈ d -> 0 < v) /\
  (forall a v, dict_get d a = Some v -> 0 < v) /\
  (exists balances, accumulate [] l = Ok balances /\
     forall a, getitem balances a <= 0 -> (a ∉ d.*1) /\ dict_get d a = None).
Proof.
  intros Hd.
  pose proof (calculate_token_balances_spec _ _ Hd) as (ds & Hds & Hacc & -> & Hnd & Hget).
  assert (Hnd' : NoDup (apply_deltas [] ds).*1) by (apply apply_deltas_NoDup; constructor).
  split; [|split].
  - intros a v Hin. apply positive_only_elem in Hin as [_ Hv]. exact Hv.
  - intros a v Hg. apply dict_get_Some in Hg; [|exact Hnd].
    apply positive_only_elem in Hg as [_ Hv]. exact Hv.
  - exists (apply_deltas [] ds). split; [exact Hacc|]. intros a Ha.
    assert (Hnone : dict_get (positive_only (apply_deltas [] ds)) a = None).
    { rewrite (dict_get_positive_only _ _ Hnd'). unfold getitem in Ha.
      destruct (dict_get (apply_deltas [] ds) a) as [v|]; [|reflexivity].
      destruct (Z.ltb_spec 0 v); [lia | reflexivity]. }
    split; [apply dict_get_None, Hnone | exact Hnone].
Qed.

Lemma calculate_token_balances_positive_witness :
  (forall a v, (a, v) ∈ [("0xb", 50)] -> 0 < v) /\
  (forall a v, dict_get [("0xb", 50)] a = Some v -> 0 < v) /\
  (exists balances,
     accumulate [] [transfer_of (PStr "0xa") (PStr "0xB") (PStr "0x32")] = Ok balances /\
     forall a, getitem balances a <= 0 ->
               (a ∉ [("0xb", 50)].*1) /\ dict_get [("0xb", 50)] a = None).
Proof.
  apply (calculate_token_balances_positive
           [transfer_of (PStr "0xa") (PStr "0xB") (PStr "0x32")] [("0xb", 50)]).
  vm_compute. reflexivity.
Defined.

(** C3. The zero address is never a key of the returned mapping, in any
    letter case, however many transfers name it as sender or receiver. *)
Theorem calculate_token_balances_no_zero_address
  (l : list (gmap string pyval)) (d : balance_dict) (a : string) :
  calculate_token_balances l = Ok d ->
  PyStr.lower a = ZERO_ADDRESS ->
  (a ∉ d.*1) /\ dict_get d a = None.
Proof.
  intros Hd Ha.
  pose proof (calculate_token_balances_spec _ _ Hd) as (ds & Hds & _ & _ & _ & Hget).
  assert (Hnone : dict_get d a = None).
  { rewrite Hget. destruct (touched ds a) eqn:Ht; [|reflexivity].
    apply touched_elem in Ht as [x Hin].
    destruct (all_deltas_keys _ _ _ _ Hds Hin) as [Htr Hlow].
    rewrite Hlow in Ha. subst a. discriminate Htr. }
  split; [apply dict_get_None, Hnone | exact Hnone].
Qed.

Lemma calculate_token_balances_no_zero_address_witness :
  ("0X0000000000000000000000000000000000000000" ∉ [("0xa", 100)].*1) /\
  dict_get [("0xa", 100)] "0X0000000000000000000000000000000000000000" = None.
Proof.
  apply (calculate_token_balances_no_zero_address
           [transfer_of (PStr "0X0000000000000000000000000000000000000000")
              (PStr "0xA") (PStr "0x64");
            transfer_of (PStr "0xB") (PStr ZERO_ADDRESS) (PStr "7")]
           [("0xa", 100)]); vm_compute; reflexivity.
Defined.

(** The loop, once started, only adds keys: the empty string is no key. *)
Lemma empty_string_not_holder_key : ~ holder_key "".
Proof. intros [Htr _]. discriminate Htr. Qed.

Lemma deltas_of_insert_from t v :
  lower_method v = lower_method (get t "from" (PStr "")) \/
  (exists s s', lower_method v = Ok s /\ lower_method (get t "from" (PStr "")) = Ok s' /\
                tracked s = false /\ tracked s' = false) ->
  deltas_of (<["from" := v]> t) = deltas_of t.
Proof.
  intros H. unfold deltas_of, get.
  rewrite lookup_insert_eq.
  rewrite !(lookup_insert_ne _ "from") by discriminate.
  destruct H as [->|(s & s' & Hv & Ht & Hs & Hs')]; [reflexivity|].
  unfold get in Ht. rewrite Hv, Ht. clear Hv Ht. cbn [bind].
  destruct (lower_method _) as [to_addr|]; [|reflexivity]. cbn [bind].
  destruct (convert_value _) as [[value|]|]; cbn [bind]; try reflexivity.
  rewrite Hs, Hs'. reflexivity.
Qed.

Lemma deltas_of_insert_to t v :
  lower_method v = lower_method (get t "to" (PStr "")) \/
  (exists s s', lower_method v = Ok s /\ lower_method (get t "to" (PStr "")) = Ok s' /\
                tracked s = false /\ tracked s' = false) ->
  deltas_of (<["to" := v]> t) = deltas_of t.
Proof.
  intros H. unfold deltas_of, get.
  rewrite lookup_insert_eq.
  rewrite !(lookup_insert_ne _ "to") by discriminate.
  destruct H as [->|(s & s' & Hv & Ht & Hs & Hs')]; [reflexivity|].
  unfold get in Ht. rewrite Hv, Ht. clear Hv Ht.
  destruct (lower_method _) as [from_addr|]; [|reflexivity]. cbn [bind].
  destruct (convert_value _) as [[value|]|]; cbn [bind]; try reflexivity.
  rewrite Hs, Hs'. reflexivity.
Qed.

Lemma absent_or_empty_lower t key :
  absent_or_empty t key ->
  lower_method (get t key (PStr "")) = Ok "" .
Proof. unfold get. intros [->| ->]; reflexivity. Qed.

Lemma accumulate_app b l1 l2 :
  accumulate b (l1 ++ l2) = try! b' := accumulate b l1 in accumulate b' l2.
Proof.
  revert b. induction l1 as [|t l1 IH]; intros b; [reflexivity|].
  rewrite <- app_comm_cons. cbn [accumulate].
  destruct (loop_body b t); cbn [bind]; [apply IH | reflexivity].
Qed.

Lemma calculate_token_balances_replace l1 t t' l2 :
  deltas_of t = deltas_of t' ->
  calculate_token_balances (l1 ++ t :: l2) = calculate_token_balances (l1 ++ t' :: l2).
Proof.
  intros Heq. unfold calculate_token_balances. rewrite !accumulate_app.
  destruct (accumulate [] l1) as [b|]; [|reflexivity]. cbn [bind accumulate].
  rewrite !loop_body_deltas, Heq. reflexivity.
Qed.

(** C10. A transfer whose [from] (or [to]) field is missing or empty is
    handled as if that field held the zero address: the iteration of the
    loop, and the result of the function on any list the transfer belongs
    to, are the same; and the empty string is never a key of the result. *)
Theorem missing_address_is_sentinel :
  (forall t b l1 l2,
     absent_or_empty t "from" ->
     let t' := <["from" := PStr ZERO_ADDRESS]> t in
     loop_body b t = loop_body b t' /\
     calculate_token_balances (l1 ++ t :: l2) = calculate_token_balances (l1 ++ t' :: l2)) /\
  (forall t b l1 l2,
     absent_or_empty t "to" ->
     let t' := <["to" := PStr ZERO_ADDRESS]> t in
     loop_body b t = loop_body b t' /\
     calculate_token_balances (l1 ++ t :: l2) = calculate_token_balances (l1 ++ t' :: l2)) /\
  (forall l d, calculate_token_balances l = Ok d ->
     ("" ∉ d.*1) /\ dict_get d "" = None).
Proof.
  split; [|split].
  - intros t b l1 l2 Habs t'.
    assert (Heq : deltas_of t = deltas_of t').
    { symmetry. apply deltas_of_insert_from. right.
      exists ZERO_ADDRESS, "". rewrite (absent_or_empty_lower _ _ Habs).
      repeat split; reflexivity. }
    split; [rewrite !loop_body_deltas, Heq; reflexivity|].
    apply calculate_token_balances_replace, Heq.
  - intros t b l1 l2 Habs t'.
    assert (Heq : deltas_of t = deltas_of t').
    { symmetry. apply deltas_of_insert_to. right.
      exists ZERO_ADDRESS, "". rewrite (absent_or_empty_lower _ _ Habs).
      repeat split; reflexivity. }
    split; [rewrite !loop_body_deltas, Heq; reflexivity|].
    apply calculate_token_balances_replace, Heq.
  - intros l d Hd.
    pose proof (calculate_token_balances_spec _ _ Hd) as (ds & Hds & _ & _ & _ & Hget).
    assert (Hnone : dict_get d "" = None).
    { rewrite Hget. destruct (touched ds "") eqn:Ht; [|reflexivity].
      apply touched_elem in Ht as [x Hin].
      exfalso. eapply empty_string_not_holder_key, all_deltas_keys; eauto. }
    split; [apply dict_get_None, Hnone | exact Hnone].
Qed.

(** ** Reading the amount of a transfer *)

Section int_of_str_facts.
Import PyStr.

Lemma is_digit_not_special base c :
  base <= 16 -> is_digit base c = true ->
  Ascii.eqb c underscore = false /\ isspace c = false /\
  Ascii.eqb c "+" = false /\ Ascii.eqb c "-" = false /\
  Ascii.eqb c "x" = false /\ Ascii.eqb c "X" = false.
Proof.
  intros Hb Hd.
  destruct c as [[] [] [] [] [] [] [] []];
    first [ repeat split; reflexivity
          | exfalso; unfold is_digit in Hd;
            set (dv := digit_value _) in Hd; vm_compute in dv; subst dv;
            cbv iota in Hd; first [discriminate | apply Z.ltb_lt in Hd; lia] ].
Qed.

Lemma scan_digits_all base s acc :
  base <= 16 -> all_digits base s = true ->
  scan_digits base s false acc = Some (positional base s acc, "").
Proof.
  intros Hb. revert acc. induction s as [|c s IH]; intros acc Hall; [reflexivity|].
  cbn [all_digits] in Hall. apply andb_true_iff in Hall as [Hc Hs].
  cbn [scan_digits positional].
  destruct (is_digit_not_special base c Hb Hc) as (-> & _).
  unfold is_digit in Hc. destruct (digit_value c) as [d|]; [|discriminate].
  rewrite Hc. apply IH, Hs.
Qed.

(** A non-empty string of digits of the base is read as the number it
    writes, with or without the [0x] of base 16. *)
Lemma int_of_str_digits base s :
  base = 10 \/ base = 16 ->
  s <> "" -> all_digits base s = true ->
  int_of_str s base = Some (positional base s 0).
Proof.
  intros Hb Hne Hall. assert (Hb16 : base <= 16) by lia.
  destruct s as [|c s]; [congruence|].
  pose proof Hall as Hall'. cbn [all_digits] in Hall'.
  apply andb_true_iff in Hall' as [Hc Hs].
  destruct (is_digit_not_special base c Hb16 Hc) as (_ & Hsp & Hplus & Hminus & _).
  unfold int_of_str. cbn [lstrip]. rewrite Hsp, Hplus, Hminus.
  unfold parse_magnitude.
  assert (strip_base_prefix base (String c s) = String c s) as ->.
  { unfold strip_base_prefix. destruct s as [|x s]; [reflexivity|].
    cbn [all_digits] in Hs. apply andb_true_iff in Hs as [Hx _].
    destruct (is_digit_not_special base x Hb16 Hx) as (_ & _ & _ & _ & -> & ->).
    rewrite andb_false_r. reflexivity. }
  rewrite Hc, (scan_digits_all _ _ _ Hb16 Hall). reflexivity.
Qed.


End int_of_str_facts.

Lemma convert_value_str s :
  convert_value (PStr s) =
    Ok (PyStr.int_of_str s (if PyStr.startswith s "0x" then 16 else 10)).
Proof.
  unfold convert_value, int_of_string.
  destruct (PyStr.startswith s "0x"); destruct (PyStr.int_of_str s _); reflexivity.
Qed.


(** The one value the conversion lets escape the loop: an infinite float,
    for which [int()] raises [OverflowError], an exception the [except]
    clause does not name. *)
Lemma convert_value_infinite sign : convert_value (PFloat (S754_infinity sign)) = Raise OverflowError.
Proof. reflexivity. Qed.


Lemma convert_value_ok v :
  match v with PFloat (S754_infinity _) => False | _ => True end ->
  exists o, convert_value v = Ok o.
Proof.
  destruct v as [|b|z|f|s| |]; intros Hv; try (eexists; reflexivity).
  - destruct f; try contradiction; eexists; reflexivity.
  - rewrite convert_value_str. eexists; reflexivity.
Qed.

(** On well-formed records the function returns a mapping. *)
Lemma calculate_token_balances_total l :
  forallb well_formed l = true -> exists d, calculate_token_balances l = Ok d.
Proof.
  intros Hwf. unfold calculate_token_balances.
  assert (Hacc : forall b, exists b', accumulate b l = Ok b').
  { induction l as [|t l IH]; intros b; [eexists; reflexivity|].
    cbn [forallb] in Hwf. apply andb_true_iff in Hwf as [Ht Hl].
    unfold well_formed in Ht. apply andb_true_iff in Ht as [Haddr Hval].
    pose proof Haddr as Haddr'. unfold addresses_are_strings in Haddr'.
    apply andb_true_iff in Haddr' as [Hfrom Hto].
    destruct (convert_value_ok (get t "value" (PStr "0x0"))) as [o Ho].
    { destruct (get t "value" (PStr "0x0")) as [| | |[]| | |]; try exact I. discriminate Hval. }
    cbn [accumulate]. unfold loop_body.
    destruct (lower_method (get t "from" _)); [|discriminate].
    destruct (lower_method (get t "to" _)); [|discriminate].
    cbn [bind]. rewrite Ho. cbn [bind]. destruct o; cbn [bind]; apply IH, Hl. }
  destruct (Hacc []) as [b' ->]. eexists; reflexivity.
Qed.


(** ** Properties of the fetcher *)

Lemma fetch_pages_full_pages pages rest c acc key0 :
  Forall (fun '(batch, key) => batch <> [] /\ key <> "") pages ->
  fetch_pages (map (fun '(batch, key) => full_page batch key) pages ++ rest) c acc key0 =
    fetch_pages rest c (acc ++ concat (map fst pages))
      (match pages with [] => key0 | _ => next_key pages end).
Proof.
  revert acc key0. induction pages as [|[batch key] pages IH]; intros acc key0 Hall.
  - cbn [map app concat]. rewrite app_nil_r. reflexivity.
  - apply Forall_cons in Hall as [[Hb Hk] Hall].
    cbn [map app fetch_pages full_page answers _make_request transfers_field pageKey_field].
    destruct batch as [|t batch]; [congruence|]. destruct key as [|ch key]; [congruence|].
    cbn [page_key_truthy PyStr.truthy is_empty negb orb].
    rewrite IH by exact Hall. cbn [map concat fst]. rewrite <- app_assoc.
    destruct pages as [|p pages]; reflexivity.
Qed.

(** C5. When a page fetch fails after pages fetched with success, the
    function returns the transfers of those pages, in order, and does not
    raise. *)
Theorem get_asset_transfers_partial
  (pages : list (list (gmap string pyval) * string)) (failed : endpoint)
  (rest : list endpoint) (contract_address : string) (e : exn) :
  pages <> [] ->
  Forall (fun '(batch, key) => batch <> [] /\ key <> "") pages ->
  _make_request failed "alchemy_getAssetTransfers"
    (page_params contract_address (next_key pages)) = Raise e ->
  get_asset_transfers
    (map (fun '(batch, key) => full_page batch key) pages ++ failed :: rest)
    contract_address
  = Some (concat (map fst pages)).
Proof.
  intros Hne Hall Hfail. unfold get_asset_transfers.
  rewrite fetch_pages_full_pages by exact Hall.
  destruct pages as [|p pages]; [congruence|].
  cbn [fetch_pages]. rewrite Hfail. reflexivity.
Qed.

Lemma get_asset_transfers_partial_witness :
  get_asset_transfers
    (map (fun '(batch, key) => full_page batch key)
       [([transfer_of (PStr ZERO_ADDRESS) (PStr "0xA") (PStr "0x64")], "k1");
        ([transfer_of (PStr "0xa") (PStr "0xB") (PStr "0x32")], "k2")]
     ++ answers (RequestFailed "timed out") :: [])
    "0x1234567890123456789012345678901234567890"
  = Some (concat (map fst
       [([transfer_of (PStr ZERO_ADDRESS) (PStr "0xA") (PStr "0x64")], "k1");
        ([transfer_of (PStr "0xa") (PStr "0xB") (PStr "0x32")], "k2")])).
Proof.
  apply (get_asset_transfers_partial _ _ _ _
           (Exception "Failed to connect to Alchemy API: timed out")).
  - discriminate.
  - repeat (apply Forall_cons; split; [split; discriminate|]). apply Forall_nil_2.
  - reflexivity.
Defined.

(** A failure of the first request is caught like any other: the fetcher
    returns the empty list and [get_top_holders] the empty ranking. *)
Lemma first_page_failure_is_empty_result :
  _make_request (answers (RequestFailed "timed out")) "alchemy_getAssetTransfers"
      (page_params "0x1234567890123456789012345678901234567890" None)
    = Raise (Exception "Failed to connect to Alchemy API: timed out") /\
  get_asset_transfers [answers (RequestFailed "timed out")]
    "0x1234567890123456789012345678901234567890" = Some [] /\
  get_top_holders [answers (RequestFailed "timed out")]
    "0x1234567890123456789012345678901234567890" 20 = Some (Ok []) /\
  ~ (exists e, get_top_holders [answers (RequestFailed "timed out")]
                 "0x1234567890123456789012345678901234567890" 20 = Some (Raise e)).
Proof.
  repeat split; try reflexivity. intros [e He]. discriminate He.
Qed.

(** C6, as the code has it. When the first page request fails, whatever the
    failure, [get_asset_transfers] returns the empty list and
    [get_top_holders] returns the empty ranking: no error reaches the
    caller. *)
Theorem first_page_failure_swallowed
  (failed : endpoint) (rest : list endpoint) (contract_address : string)
  (e : exn) (top_n : Z) :
  _make_request failed "alchemy_getAssetTransfers" (page_params contract_address None)
    = Raise e ->
  get_asset_transfers (failed :: rest) contract_address = Some [] /\
  get_top_holders (failed :: rest) contract_address top_n = Some (Ok []).
Proof.
  intros Hfail.
  assert (Hget : get_asset_transfers (failed :: rest) contract_address = Some []).
  { unfold get_asset_transfers. cbn [fetch_pages]. rewrite Hfail. reflexivity. }
  split; [exact Hget|]. unfold get_top_holders. rewrite Hget. reflexivity.
Qed.

Lemma first_page_failure_swallowed_witness :
  get_asset_transfers [answers (Reply (Some "rate limit exceeded") None)]
    "0x1234567890123456789012345678901234567890" = Some [] /\
  get_top_holders [answers (Reply (Some "rate limit exceeded") None)]
    "0x1234567890123456789012345678901234567890" 20 = Some (Ok []).
Proof.
  apply (first_page_failure_swallowed _ _ _
           (Exception "Alchemy API error: rate limit exceeded")).
  reflexivity.
Defined.

(** ** Properties of the ranker *)

Section ranker_facts.
Implicit Types (x : string * Z) (l : list (string * Z)).

Lemma insert_desc_perm x l : insert_desc x l ≡ₚ x :: l.
Proof.
  induction l as [|y l IH]; [reflexivity|]. cbn [insert_desc].
  destruct (x.2 <? y.2); [|reflexivity].
  rewrite IH. apply perm_swap.
Qed.

Lemma sorted_desc_perm l : sorted_desc l ≡ₚ l.
Proof.
  induction l as [|x l IH]; [reflexivity|]. cbn [sorted_desc].
  rewrite insert_desc_perm, IH. reflexivity.
Qed.

Lemma insert_desc_sorted x l :
  StronglySorted descending l -> StronglySorted descending (insert_desc x l).
Proof.
  induction l as [|y l IH]; intros Hs; cbn [insert_desc].
  - apply StronglySorted_cons. split; [apply Forall_nil_2 | exact Hs].
  - apply StronglySorted_cons in Hs as [Hy Hs].
    destruct (Z.ltb_spec x.2 y.2) as [Hlt|Hge].
    + apply StronglySorted_cons. split; [|apply IH, Hs].
      rewrite insert_desc_perm. apply Forall_cons. split; [|exact Hy].
      unfold descending. lia.
    + apply StronglySorted_cons. split.
      * apply Forall_cons. split; [exact Hge|].
        eapply Forall_impl; [exact Hy|]. unfold descending. intros z Hz. lia.
      * apply StronglySorted_cons. split; assumption.
Qed.

Lemma sorted_desc_sorted l : StronglySorted descending (sorted_desc l).
Proof.
  induction l as [|x l IH]; cbn [sorted_desc]; [constructor|].
  apply insert_desc_sorted, IH.
Qed.

(** The sort is stable: entries of one balance keep their order. *)
Lemma insert_desc_filter v x l :
  filter (fun y => y.2 = v) (insert_desc x l) = filter (fun y => y.2 = v) (x :: l).
Proof.
  induction l as [|y l IH]; [reflexivity|]. cbn [insert_desc].
  destruct (Z.ltb_spec x.2 y.2) as [Hlt|Hge]; [|reflexivity].
  rewrite filter_cons, IH, !filter_cons.
  destruct (decide (y.2 = v)), (decide (x.2 = v)); try reflexivity. lia.
Qed.

Lemma sorted_desc_stable v l :
  filter (fun y => y.2 = v) (sorted_desc l) = filter (fun y => y.2 = v) l.
Proof.
  induction l as [|x l IH]; [reflexivity|]. cbn [sorted_desc].
  rewrite insert_desc_filter, !filter_cons, IH. reflexivity.
Qed.

Lemma slice_to_prefix {A} (s : list A) n : exists tail, s = (slice_to s n ++ tail)%list.
Proof.
  unfold slice_to. destruct (n <? 0); eexists; symmetry; apply firstn_skipn.
Qed.

Lemma slice_to_length {A} (s : list A) n :
  0 <= n -> Z.of_nat (length (slice_to s n)) <= n.
Proof.
  intros Hn. unfold slice_to. destruct (Z.ltb_spec n 0); [lia|].
  rewrite length_firstn. lia.
Qed.
End ranker_facts.

(** C7. For a requested count [top_n] (a natural number), the ranking step
    returns at most [top_n] pairs, which are the first ones of the balances
    sorted in descending order: the result is sorted, and its first entry
    has a balance no smaller than any later one. An empty mapping gives the
    empty list, and so does an empty transfer list, without an error. *)
Theorem rank_top_sorted_prefix (balances : balance_dict) (top_n : Z) :
  0 <= top_n ->
  Z.of_nat (length (rank_top balances top_n)) <= top_n /\
  StronglySorted descending (rank_top balances top_n) /\
  (forall first rest entry,
     rank_top balances top_n = first :: rest -> entry ∈ rest -> entry.2 <= first.2) /\
  (exists tail, (rank_top balances top_n ++ tail)%list ≡ₚ balances /\
     StronglySorted descending (rank_top balances top_n ++ tail)%list) /\
  rank_top [] top_n = [] /\
  (forall api token, get_asset_transfers api token = Some [] ->
     get_top_holders api token top_n = Some (Ok [])) /\
  (forall api token transfers, get_asset_transfers api token = Some transfers ->
     calculate_token_balances transfers = Ok [] ->
     get_top_holders api token top_n = Some (Ok [])).
Proof.
  intros Hn.
  assert (Hpre : exists tail, (rank_top balances top_n ++ tail)%list ≡ₚ balances /\
     StronglySorted descending (rank_top balances top_n ++ tail)%list).
  { unfold rank_top. destruct balances as [|p balances].
    - exists []. split; [reflexivity | constructor].
    - cbn [is_empty]. destruct (slice_to_prefix (sorted_desc (p :: balances)) top_n) as [tail Ht].
      exists tail. rewrite <- Ht. split; [apply sorted_desc_perm | apply sorted_desc_sorted]. }
  assert (Hsorted : StronglySorted descending (rank_top balances top_n)).
  { destruct Hpre as (tail & _ & Hs). eapply StronglySorted_app_1_l, Hs. }
  split; [|split; [exact Hsorted|split; [|split; [exact Hpre|split; [reflexivity|split]]]]].
  - unfold rank_top. destruct (is_empty balances); [cbn; lia|].
    apply slice_to_length, Hn.
  - intros first rest entry Heq Hin. rewrite Heq in Hsorted.
    apply StronglySorted_cons in Hsorted as [Hall _].
    rewrite Forall_forall in Hall. apply Hall, Hin.
  - intros api token Hget. unfold get_top_holders. rewrite Hget. reflexivity.
  - intros api token transfers Hget Hcalc. unfold get_top_holders. rewrite Hget, Hcalc.
    destruct (is_empty transfers); reflexivity.
Qed.

(** ** Examples of [format_balance] *)

Example format_balance_examples :
  map (fun '(b, d) => format_balance b d)
    [(0, 18%N); (5, 18%N); (999, 18%N); (1000, 18%N); (1500, 18%N); (999999, 18%N);
     (1000000, 18%N); (1234567, 18%N); (10^12 - 1, 18%N); (10^12, 18%N); (10^12, 0%N);
     (10^12, 6%N); (10^24 - 1, 18%N); (10^24, 18%N); (10^21, 18%N);
     (123456789 * 10^18, 18%N); (-5, 18%N); (- 10^400, 18%N); (10^400, 18%N);
     (10^330, 18%N); (10^12, 400%N); (1005 * 10^18, 18%N); (1015 * 10^18, 18%N);
     (1025 * 10^18, 18%N); (10^12 + 1, 12%N); (2^70, 18%N); (12345678912345, 10%N);
     (10^12, 13%N); (10^12, 16%N); (10^12, 17%N)]
  = [Ok "0"; Ok "5"; Ok "999"; Ok "1.00K"; Ok "1.50K"; Ok "1000.00K";
     Ok "1.00M"; Ok "1.23M"; Ok "1000000.00M"; Ok "0"; Ok "1000000.00M";
     Ok "1.00M"; Ok "1.00M"; Ok "1.00M"; Ok "1.00K";
     Ok "123.46M"; Ok "-5"; Raise OverflowError; Raise OverflowError;
     Raise OverflowError; Ok "0"; Ok "1.00K"; Ok "1.01K";
     Ok "1.02K"; Ok "1"; Ok "1.18K"; Ok "1.23K";
     Ok "0.1"; Ok "0.0001"; Ok "0"].
Proof. vm_compute. reflexivity. Qed.

(** ** Facts about binary64 rounding

    The quotient of two integers overflows only if the dividend is beyond
    the range of the floats: below [2^1023] the rounded quotient is
    finite. *)

Section float_bounds.
Lemma digits2_pos_size p : digits2_pos p = Pos.size p.
Proof. induction p as [p IH|p IH|]; cbn; rewrite ?IH; reflexivity. Qed.

Lemma Zdigits2_log2 p : Zdigits2 (Z.pos p) = Z.log2 (Z.pos p) + 1.
Proof.
  cbn [Zdigits2]. rewrite digits2_pos_size.
  destruct p as [p|p|]; cbn [Pos.size Z.log2]; lia.
Qed.

Lemma Zdigits2_le m D : 0 <= m < 2 ^ D -> 0 <= D -> Zdigits2 m <= D.
Proof.
  intros [Hm Hlt] HD. destruct m as [|p|p]; [exact HD| |lia].
  rewrite Zdigits2_log2.
  assert (Z.log2 (Z.pos p) < D) by (apply Z.log2_lt_pow2; lia). lia.
Qed.

Lemma shr_1_m mrs : 0 <= shr_m mrs -> shr_m (shr_1 mrs) = shr_m mrs / 2.
Proof.
  destruct mrs as [m r s]. cbn [shr_m]. intros Hm.
  rewrite <- Z.div2_div.
  destruct m as [|[p|p|]|p]; try reflexivity; lia.
Qed.

Lemma iter_pos_shr_1_m p mrs :
  0 <= shr_m mrs ->
  shr_m (SpecFloat.iter_pos shr_1 p mrs) = shr_m mrs / 2 ^ Z.pos p.
Proof.
  revert mrs. induction p as [p IH|p IH|]; intros mrs Hm; cbn [SpecFloat.iter_pos].
  - assert (H1 : 0 <= shr_m (shr_1 mrs)).
    { rewrite shr_1_m by exact Hm. apply Z.div_pos; lia. }
    assert (H2 : 0 <= shr_m (SpecFloat.iter_pos shr_1 p (shr_1 mrs))).
    { rewrite IH by exact H1. apply Z.div_pos; [exact H1 | lia]. }
    rewrite IH by exact H2. rewrite IH by exact H1. rewrite shr_1_m by exact Hm.
    rewrite !Z.div_div by lia.
    replace (2 ^ Z.pos p~1) with (2 * (2 ^ Z.pos p * 2 ^ Z.pos p)); [reflexivity|].
    rewrite Pos2Z.inj_xI, Z.pow_add_r, Z.pow_mul_r by lia.
    rewrite <- Z.pow_mul_l. change (2 ^ 2) with (2 * 2). lia.
  - assert (H2 : 0 <= shr_m (SpecFloat.iter_pos shr_1 p mrs)).
    { rewrite IH by exact Hm. apply Z.div_pos; [exact Hm | lia]. }
    rewrite IH by exact H2. rewrite IH by exact Hm.
    rewrite !Z.div_div by lia.
    replace (2 ^ Z.pos p~0) with (2 ^ Z.pos p * 2 ^ Z.pos p); [reflexivity|].
    rewrite (Pos2Z.inj_xO p), Z.pow_mul_r by lia.
    rewrite <- Z.pow_mul_l. reflexivity.
  - rewrite shr_1_m by exact Hm. reflexivity.
Qed.

Lemma shr_spec mrs e n :
  0 <= shr_m mrs ->
  shr mrs e n =
    (fst (shr mrs e n), if 0 <? n then e + n else e) /\
  shr_m (fst (shr mrs e n)) = if 0 <? n then shr_m mrs / 2 ^ n else shr_m mrs.
Proof.
  intros Hm. destruct n as [|p|p]; cbn [shr fst Z.ltb Z.compare]; split; try reflexivity.
  apply iter_pos_shr_1_m, Hm.
Qed.

Lemma shr_record_of_loc_m m l : shr_m (shr_record_of_loc m l) = m.
Proof. destruct l as [|[]]; reflexivity. Qed.

Lemma shr_fexp_bounds m e l D :
  0 <= m < 2 ^ D -> 0 <= D ->
  0 <= shr_m (fst (shr_fexp 53 1024 m e l)) /\
  e <= snd (shr_fexp 53 1024 m e l) <= Z.max e (fexp 53 1024 (D + e)) /\
  shr_m (fst (shr_fexp 53 1024 m e l)) < 2 ^ Z.max 0 (D + e - snd (shr_fexp 53 1024 m e l)).
Proof.
  intros Hm HD. unfold shr_fexp.
  pose proof (Zdigits2_le m D Hm HD) as Hdig.
  assert (Hdig0 : 0 <= Zdigits2 m) by (destruct m; cbn; lia).
  set (n := fexp 53 1024 (Zdigits2 m + e) - e).
  assert (Hn : n <= fexp 53 1024 (D + e) - e).
  { subst n. unfold fexp, emin. lia. }
  assert (Hm0 : 0 <= shr_m (shr_record_of_loc m l)) by (rewrite shr_record_of_loc_m; lia).
  destruct (shr_spec (shr_record_of_loc m l) e n Hm0) as [He Hmm].
  rewrite He. cbn [fst snd]. rewrite Hmm, shr_record_of_loc_m.
  destruct (Z.ltb_spec 0 n) as [Hpos|Hneg].
  - split; [apply Z.div_pos; lia|]. split; [lia|].
    replace (D + e - (e + n)) with (D - n) by lia.
    destruct (Z.le_gt_cases n D) as [HnD|HnD].
    + rewrite Z.max_r by lia. apply Z.div_lt_upper_bound; [lia|].
      rewrite <- Z.pow_add_r by lia. replace (n + (D - n)) with D by lia. lia.
    + rewrite Z.max_l by lia. rewrite Z.div_small; [reflexivity|].
      split; [lia|]. apply Z.lt_le_trans with (2 ^ D); [lia|].
      apply Z.pow_le_mono_r; lia.
  - split; [lia|]. split; [lia|].
    replace (D + e - e) with D by lia. rewrite Z.max_r by lia. lia.
Qed.

Lemma round_nearest_even_bounds m l :
  m <= round_nearest_even m l <= m + 1.
Proof. destruct l as [|[]]; cbn [round_nearest_even]; try destruct (Z.even m); lia. Qed.

Lemma binary_round_aux_not_infinity sx mx ex lx D s :
  0 <= mx < 2 ^ D -> 0 <= D -> D + ex <= 1023 -> ex <= 971 ->
  binary_round_aux 53 1024 sx mx ex lx <> S754_infinity s.
Proof.
  intros Hm HD HDe He. unfold binary_round_aux.
  pose proof (shr_fexp_bounds mx ex lx D Hm HD) as (H0 & He' & Hlt).
  destruct (shr_fexp 53 1024 mx ex lx) as [mrs' e']. cbn [fst snd] in *.
  set (mr := round_nearest_even (shr_m mrs') (loc_of_shr_record mrs')).
  pose proof (round_nearest_even_bounds (shr_m mrs') (loc_of_shr_record mrs')) as Hr.
  fold mr in Hr.
  set (K := Z.max 0 (D + ex - e')) in *.
  assert (Hmr : 0 <= mr < 2 ^ (K + 1)).
  { split; [lia|]. rewrite Z.pow_add_r by lia. change (2 ^ 1) with 2. lia. }
  pose proof (shr_fexp_bounds mr e' loc_Exact (K + 1) Hmr ltac:(lia)) as (_ & He'' & _).
  destruct (shr_fexp 53 1024 mr e' loc_Exact) as [mrs'' e'']. cbn [fst snd] in *.
  destruct (shr_m mrs''); try discriminate.
  destruct (Z.leb_spec e'' (1024 - 53)) as [|Hgt]; [discriminate|].
  exfalso. subst K. unfold fexp, emin in *. lia.
Qed.

Lemma SFdiv_integers_not_infinity a b s :
  0 < a < 2 ^ 1023 -> 0 < b ->
  SFdiv 53 1024 (S754_finite false (Z.to_pos a) 0) (S754_finite false (Z.to_pos b) 0)
    <> S754_infinity s.
Proof.
  intros Ha Hb. cbn [SFdiv]. unfold SFdiv_core_binary.
  rewrite !Z2Pos.id by lia.
  set (e' := Z.min _ _). set (sh := 0 - 0 - e').
  assert (He' : e' <= 0) by (subst e'; lia).
  set (m' := match sh with Z.pos _ => Z.shiftl a sh | 0 => a | Z.neg _ => 0 end).
  assert (Hm' : m' = a * 2 ^ sh).
  { subst m'. destruct sh eqn:Hsh; [cbn; lia| |lia].
    rewrite Z.shiftl_mul_pow2 by lia. reflexivity. }
  assert (Hq : fst (Z.div_eucl m' b) = m' / b) by reflexivity.
  destruct (Z.div_eucl m' b) as [q r]. cbn [fst] in Hq.
  apply binary_round_aux_not_infinity with (D := 1023 + sh); try lia.
  assert (Hsh : 0 <= sh) by (subst sh; lia).
  assert (Hpow : 0 < 2 ^ sh) by (apply Z.pow_pos_nonneg; lia).
  rewrite Hq, Hm'. split.
  - apply Z.div_pos; nia.
  - apply Z.le_lt_trans with (a * 2 ^ sh).
    + apply Z.div_le_upper_bound; nia.
    + rewrite Z.pow_add_r by lia. nia.
Qed.
End float_bounds.

Lemma exact_pos z : 0 < z -> PyFloat.exact z = S754_finite false (Z.to_pos z) 0.
Proof. destruct z; try lia. reflexivity. Qed.

Lemma int_truediv_ok a b :
  0 < a < 2 ^ 1023 -> 0 < b -> exists q, PyFloat.int_truediv a b = Ok q.
Proof.
  intros Ha Hb. unfold PyFloat.int_truediv. rewrite !exact_pos by lia.
  pose proof (fun s => SFdiv_integers_not_infinity a b s Ha Hb) as Hinf.
  unfold PyFloat.prec, PyFloat.emax.
  destruct (SFdiv 53 1024 _ _) as [s|s| |s m e]; try (eexists; reflexivity).
  exfalso. apply (Hinf s). reflexivity.
Qed.

Lemma readable_balance_int balance decimals z :
  readable_balance balance decimals = Ok (NInt z) -> z = balance /\ balance < 10 ^ 12.
Proof.
  unfold readable_balance. destruct (Z.ltb_spec balance (10 ^ 12)).
  - intros [= <-]. split; [reflexivity | assumption].
  - destruct (PyFloat.int_truediv _ _); discriminate.
Qed.

Lemma num_truediv_ok balance decimals r k :
  readable_balance balance decimals = Ok r ->
  0 < k -> num_ge r k = true ->
  exists q, num_truediv r k = Ok q.
Proof.
  intros Hr Hk Hge. destruct r as [z|f]; [|eexists; reflexivity].
  apply readable_balance_int in Hr as [-> Hlt]. cbn [num_ge] in Hge.
  apply Z.leb_le in Hge. cbn [num_truediv]. apply int_truediv_ok; [|exact Hk].
  split; [lia|]. apply Z.lt_trans with (10 ^ 12); [exact Hlt | reflexivity].
Qed.

(** C9. [format_balance] takes a balance below [10^12] as it is, without a
    division, so that the result does not depend on [decimals]; it divides
    a balance of [10^12] or more by [10^decimals]; and it then writes the
    readable value over a million with the suffix M when that value is at
    least 1,000,000, and over a thousand with the suffix K when it is at
    least 1,000 (and below 1,000,000). *)
Theorem format_balance_thresholds (balance : Z) (decimals : N) :
  (balance < 10 ^ 12 ->
     readable_balance balance decimals = Ok (NInt balance) /\
     forall decimals', format_balance balance decimals' = format_balance balance decimals) /\
  (10 ^ 12 <= balance ->
     readable_balance balance decimals =
       (try! q := PyFloat.int_truediv balance (10 ^ Z.of_N decimals) in Ok (NFloat q))) /\
  (forall r, readable_balance balance decimals = Ok r ->
     num_ge r 1000000 = true ->
     exists q, num_truediv r 1000000 = Ok q /\
       format_balance balance decimals = Ok (PyFloat.format_f 2 q ++ "M")) /\
  (forall r, readable_balance balance decimals = Ok r ->
     num_ge r 1000000 = false -> num_ge r 1000 = true ->
     exists q, num_truediv r 1000 = Ok q /\
       format_balance balance decimals = Ok (PyFloat.format_f 2 q ++ "K")).
Proof.
  split; [|split; [|split]].
  - intros Hlt. apply Z.ltb_lt in Hlt.
    assert (Hr : forall d, readable_balance balance d = Ok (NInt balance)).
    { intros d. unfold readable_balance. rewrite Hlt. reflexivity. }
    split; [apply Hr|]. intros d'. unfold format_balance. rewrite !Hr. reflexivity.
  - intros Hge. unfold readable_balance.
    destruct (Z.ltb_spec balance (10 ^ 12)); [lia | reflexivity].
  - intros r Hr Hge.
    destruct (num_truediv_ok _ _ _ 1000000 Hr ltac:(lia) Hge) as [q Hq].
    exists q. split; [exact Hq|].
    unfold format_balance. rewrite Hr. cbn [bind]. rewrite Hge, Hq. reflexivity.
  - intros r Hr Hlt Hge.
    destruct (num_truediv_ok _ _ _ 1000 Hr ltac:(lia) Hge) as [q Hq].
    exists q. split; [exact Hq|].
    unfold format_balance. rewrite Hr. cbn [bind]. rewrite Hlt, Hge, Hq. reflexivity.
Qed.

(** ** Properties of [is_valid_address] *)

Lemma all_digits_tail base c s :
  PyStr.all_digits base (String c s) = true -> PyStr.all_digits base s = true.
Proof. cbn [PyStr.all_digits]. intros H. apply andb_true_iff in H as [_ H]. exact H. Qed.

(** Forty hexadecimal digits, with or without [0x], are accepted. *)
Lemma is_valid_address_forty_hex s :
  forty_hex_digits s = true -> is_valid_address (PStr s) = true.
Proof.
  unfold forty_hex_digits, is_valid_address. intros H.
  apply andb_true_iff in H as [Hlen Hall].
  destruct s as [|c s]; [discriminate Hlen|]. cbn [PyStr.truthy negb].
  set (body := if PyStr.startswith _ _ then _ else _) in *.
  rewrite Hlen. cbn [negb]. unfold int_of_string.
  rewrite int_of_str_digits; [reflexivity | right; reflexivity | | exact Hall].
  intros ->. discriminate Hlen.
Qed.

(** Anything that is not a string, and any string of another length after
    the prefix, is rejected. *)
Lemma is_valid_address_rejects v :
  match v with
  | PStr s =>
      PyStr.len (if PyStr.startswith s "0x" then PyStr.drop 2 s else s) <> 40
  | _ => True
  end ->
  is_valid_address v = false.
Proof.
  destruct v as [| | | |s| |]; try reflexivity. intros Hlen.
  unfold is_valid_address. destruct (negb (PyStr.truthy s)); [reflexivity|].
  apply Z.eqb_neq in Hlen. rewrite Hlen. reflexivity.
Qed.

(** C8. The validator does not reject every string that is not forty
    hexadecimal digits: [int(address, 16)] also reads a sign, so a plus sign
    followed by thirty-nine digits is accepted, and so is a second [0x]
    prefix or an underscore between digits. *)
Theorem is_valid_address_accepts_non_hex :
  is_valid_address (PStr "+aaaaaaaaaaaaaaaaaaaaaaaaaaaaaaaaaaaaaaa") = true /\
  forty_hex_digits "+aaaaaaaaaaaaaaaaaaaaaaaaaaaaaaaaaaaaaaa" = false /\
  is_valid_address (PStr "0x0xaaaaaaaaaaaaaaaaaaaaaaaaaaaaaaaaaaaaaa") = true /\
  forty_hex_digits "0x0xaaaaaaaaaaaaaaaaaaaaaaaaaaaaaaaaaaaaaa" = false /\
  is_valid_address (PStr "0xa_aaaaaaaaaaaaaaaaaaaaaaaaaaaaaaaaaaaaaa") = true /\
  forty_hex_digits "0xa_aaaaaaaaaaaaaaaaaaaaaaaaaaaaaaaaaaaaaa" = false.
Proof. vm_compute. repeat split; reflexivity. Qed.

Example is_valid_address_scenarios :
  is_valid_address (PStr "1234") = false /\
  is_valid_address (PStr "0xabababababababababababababababababababab") = true /\
  is_valid_address (PStr "abababababababababababababababababababab") = true /\
  is_valid_address (PStr "0xababababababababababababababababababagab") = false /\
  is_valid_address (PStr "") = false /\
  is_valid_address PNone = false /\
  is_valid_address (PInt 5) = false.
Proof. vm_compute. repeat split; reflexivity. Qed.

(** ** Instances of the theorems above *)


Lemma missing_address_is_sentinel_witness :
  let t := <["to" := PStr "0xB"]> (<["value" := PStr "7"]> (∅ : gmap string pyval)) in
  let t' := <["from" := PStr ZERO_ADDRESS]> t in
  loop_body [] t = loop_body [] t' /\
  calculate_token_balances ([] ++ t :: []) = calculate_token_balances ([] ++ t' :: []).
Proof.
  destruct missing_address_is_sentinel as (Hfrom & _ & _).
  apply (Hfrom (<["to" := PStr "0xB"]> (<["value" := PStr "7"]> (∅ : gmap string pyval)))
           [] [] []).
  left. vm_compute. reflexivity.
Defined.

Lemma rank_top_sorted_prefix_witness :
  Z.of_nat (length (rank_top [("0xa", 1); ("0xb", 3); ("0xc", 2)] 2)) <= 2 /\
  StronglySorted descending (rank_top [("0xa", 1); ("0xb", 3); ("0xc", 2)] 2) /\
  (forall first rest entry,
     rank_top [("0xa", 1); ("0xb", 3); ("0xc", 2)] 2 = first :: rest ->
     entry ∈ rest -> entry.2 <= first.2) /\
  (exists tail,
     (rank_top [("0xa", 1); ("0xb", 3); ("0xc", 2)] 2 ++ tail)%list
       ≡ₚ [("0xa", 1); ("0xb", 3); ("0xc", 2)] /\
     StronglySorted descending
       (rank_top [("0xa", 1); ("0xb", 3); ("0xc", 2)] 2 ++ tail)%list) /\
  rank_top [] 2 = [] /\
  (forall api token, get_asset_transfers api token = Some [] ->
     get_top_holders api token 2 = Some (Ok [])) /\
  (forall api token transfers, get_asset_transfers api token = Some transfers ->
     calculate_token_balances transfers = Ok [] ->
     get_top_holders api token 2 = Some (Ok [])).
Proof. apply (rank_top_sorted_prefix [("0xa", 1); ("0xb", 3); ("0xc", 2)] 2). lia. Defined.

Lemma format_balance_thresholds_witness :
  exists q, num_truediv (NInt 1500) 1000 = Ok q /\
    format_balance 1500 18 = Ok (PyFloat.format_f 2 q ++ "K").
Proof.
  apply (proj2 (proj2 (proj2 (format_balance_thresholds 1500 18))) (NInt 1500));
    reflexivity.
Defined.

(** ** Examples of the ranking *)

(** The order of the transfers shows in the order of the entries, not in
    the mapping; the stable sort lets it decide between equal balances. *)
Example transfer_order_and_ties :
  let mint_a := transfer_of (PStr ZERO_ADDRESS) (PStr "0xA") (PStr "0x10") in
  let mint_b := transfer_of (PStr ZERO_ADDRESS) (PStr "0xB") (PStr "16") in
  calculate_token_balances [mint_a; mint_b] = Ok [("0xa", 16); ("0xb", 16)] /\
  calculate_token_balances [mint_b; mint_a] = Ok [("0xb", 16); ("0xa", 16)] /\
  dict_eqb [("0xa", 16); ("0xb", 16)] [("0xb", 16); ("0xa", 16)] = true /\
  rank_top [("0xa", 16); ("0xb", 16)] 1 = [("0xa", 16)] /\
  rank_top [("0xb", 16); ("0xa", 16)] 1 = [("0xb", 16)].
Proof. vm_compute. repeat split; reflexivity. Qed.

Example rank_top_stable :
  rank_top [("0xa", 1); ("0xb", 2); ("0xc", 1); ("0xd", 2)] 3
  = [("0xb", 2); ("0xd", 2); ("0xa", 1)].
Proof. reflexivity. Qed.

(** A negative count is not a count: the slice then drops entries from the
    end of the ranking. *)
Example rank_top_negative :
  rank_top [("0xa", 3); ("0xb", 2); ("0xc", 1)] (-1) = [("0xa", 3); ("0xb", 2)].
Proof. reflexivity. Qed.

Example get_top_holders_two_pages :
  get_top_holders
    [full_page [transfer_of (PStr ZERO_ADDRESS) (PStr "0xA") (PStr "0x64")] "k1";
     answers (Reply None (Some {| transfers_field :=
                           Some [transfer_of (PStr "0xa") (PStr "0xB") (PStr "0x20")];
                         pageKey_field := None |}))]
    "0x1234567890123456789012345678901234567890" 20
  = Some (Ok [("0xa", 68); ("0xb", 32)]).
Proof. vm_compute. reflexivity. Qed.

(** * Further properties

    ** The reconstruction: what the mapping depends on *)

Section reconstruction_facts.
Implicit Types (b : balance_dict) (ds : list (string * Z)) (k : string).

Lemma all_deltas_app l1 l2 :
  all_deltas (l1 ++ l2) =
    try! d1 := all_deltas l1 in try! d2 := all_deltas l2 in Ok (d1 ++ d2)%list.
Proof.
  induction l1 as [|t l1 IH].
  - cbn [app all_deltas bind]. destruct (all_deltas l2); reflexivity.
  - rewrite <- app_comm_cons. cbn [all_deltas]. rewrite IH.
    destruct (deltas_of t) as [d|]; [|reflexivity]. cbn [bind].
    destruct (all_deltas l1) as [d1|]; [|reflexivity]. cbn [bind].
    destruct (all_deltas l2) as [d2|]; [|reflexivity]. cbn [bind].
    rewrite app_assoc. reflexivity.
Qed.

Lemma calculate_token_balances_deltas l :
  calculate_token_balances l =
    try! ds := all_deltas l in Ok (positive_only (apply_deltas [] ds)).
Proof.
  unfold calculate_token_balances. rewrite accumulate_deltas.
  destruct (all_deltas l); reflexivity.
Qed.

(** An entry of the result is the net amount of its address, when that
    amount is positive. *)
Lemma dict_get_result ds k :
  dict_get (positive_only (apply_deltas [] ds)) k =
    if 0 <? net ds k then Some (net ds k) else None.
Proof.
  assert (Hnd : NoDup (apply_deltas [] ds).*1) by (apply apply_deltas_NoDup; constructor).
  rewrite (dict_get_positive_only _ _ Hnd), dict_get_apply_deltas.
  destruct (touched ds k) eqn:Ht.
  - change (getitem [] k) with 0. rewrite Z.add_0_l. reflexivity.
  - rewrite (net_untouched _ _ Ht). reflexivity.
Qed.

Lemma result_NoDup ds : NoDup (positive_only (apply_deltas [] ds)).*1.
Proof. apply positive_only_keys_NoDup, apply_deltas_NoDup. constructor. Qed.

(** Two lists whose deltas give every address the same net amount have the
    same mapping. *)
Lemma same_mapping_of_nets l l' :
  match all_deltas l, all_deltas l' with
  | Ok ds, Ok ds' => forall k, net ds k = net ds' k
  | Raise _, Raise _ => True
  | _, _ => False
  end ->
  same_mapping (calculate_token_balances l) (calculate_token_balances l').
Proof.
  rewrite !calculate_token_balances_deltas.
  destruct (all_deltas l) as [ds|], (all_deltas l') as [ds'|]; cbn [bind same_mapping];
    try tauto.
  intros Hnet.
  assert (Heq : forall a, dict_get (positive_only (apply_deltas [] ds)) a =
                          dict_get (positive_only (apply_deltas [] ds')) a).
  { intros a. rewrite !dict_get_result, Hnet. reflexivity. }
  split; [apply dict_eqb_true; auto using result_NoDup | exact Heq].
Qed.

Lemma same_mapping_replace l1 t t' l2 :
  match deltas_of t, deltas_of t' with
  | Ok ds, Ok ds' => forall k, net ds k = net ds' k
  | Raise _, Raise _ => True
  | _, _ => False
  end ->
  same_mapping (calculate_token_balances (l1 ++ t :: l2))
               (calculate_token_balances (l1 ++ t' :: l2)).
Proof.
  intros H. apply same_mapping_of_nets. rewrite !all_deltas_app. cbn [all_deltas].
  destruct (all_deltas l1) as [d1|]; cbn [bind]; [|exact I].
  destruct (deltas_of t) as [ds|], (deltas_of t') as [ds'|]; cbn [bind]; try tauto.
  destruct (all_deltas l2) as [d2|]; cbn [bind]; [|exact I].
  intros k. rewrite !net_app, H. reflexivity.
Qed.

Lemma same_mapping_drop l1 t l2 ds :
  deltas_of t = Ok ds -> (forall k, net ds k = 0) ->
  same_mapping (calculate_token_balances (l1 ++ t :: l2))
               (calculate_token_balances (l1 ++ l2)).
Proof.
  intros Ht Hnet. apply same_mapping_of_nets. rewrite !all_deltas_app. cbn [all_deltas].
  rewrite Ht. cbn [bind].
  destruct (all_deltas l1) as [d1|]; cbn [bind]; [|exact I].
  destruct (all_deltas l2) as [d2|]; cbn [bind]; [|exact I].
  intros k. rewrite !net_app, Hnet. lia.
Qed.
End reconstruction_facts.

(** X1. A transfer whose sender and receiver are the same address (in any
    letter case) changes nothing: the mapping is the one of the list
    without it. *)
Theorem self_transfer_is_neutral
  (l1 l2 : list (gmap string pyval)) (t : gmap string pyval) (s1 s2 : string) :
  get t "from" (PStr "") = PStr s1 ->
  get t "to" (PStr "") = PStr s2 ->
  PyStr.lower s1 = PyStr.lower s2 ->
  is_ok (convert_value (get t "value" (PStr "0x0"))) = true ->
  same_mapping (calculate_token_balances (l1 ++ t :: l2))
               (calculate_token_balances (l1 ++ l2)).
Proof.
  intros Hf Ht Hlow Hv.
  destruct (convert_value (get t "value" (PStr "0x0"))) as [o|] eqn:Ho; [|discriminate].
  assert (Hd : exists ds, deltas_of t = Ok ds /\ forall k, net ds k = 0).
  { unfold deltas_of. rewrite Hf, Ht, Ho. cbn [lower_method bind]. rewrite Hlow.
    destruct o as [v|]; [|exists []; split; [reflexivity | reflexivity]].
    eexists; split; [reflexivity|]. intros k.
    destruct (tracked (PyStr.lower s2)); cbn [app]; [|reflexivity].
    rewrite !net_cons. change (net [] k) with 0.
    destruct (String.eqb (PyStr.lower s2) k); lia. }
  destruct Hd as (ds & Hds & Hnet). eapply same_mapping_drop; eassumption.
Qed.

Lemma self_transfer_is_neutral_witness :
  same_mapping
    (calculate_token_balances
       ([transfer_of (PStr ZERO_ADDRESS) (PStr "0xA") (PStr "9")]
        ++ transfer_of (PStr "0xAb") (PStr "0xaB") (PStr "0x5") :: []))
    (calculate_token_balances
       ([transfer_of (PStr ZERO_ADDRESS) (PStr "0xA") (PStr "9")] ++ [])).
Proof.
  apply (self_transfer_is_neutral _ _ _ "0xAb" "0xaB"); vm_compute; reflexivity.
Defined.

(** X2. A transfer of amount zero changes nothing either. *)
Theorem zero_amount_is_neutral
  (l1 l2 : list (gmap string pyval)) (t : gmap string pyval) :
  addresses_are_strings t = true ->
  convert_value (get t "value" (PStr "0x0")) = Ok (Some 0) ->
  same_mapping (calculate_token_balances (l1 ++ t :: l2))
               (calculate_token_balances (l1 ++ l2)).
Proof.
  intros Haddr Hv. unfold addresses_are_strings in Haddr.
  apply andb_true_iff in Haddr as [Hf Ht].
  destruct (lower_method (get t "from" (PStr ""))) as [f|] eqn:Hfrom; [|discriminate].
  destruct (lower_method (get t "to" (PStr ""))) as [r|] eqn:Hto; [|discriminate].
  eapply same_mapping_drop.
  - unfold deltas_of. rewrite Hfrom, Hto, Hv. reflexivity.
  - intros k. destruct (tracked f), (tracked r); cbn [app];
      rewrite ?net_cons; change (net [] k) with 0;
      repeat match goal with |- context [String.eqb ?a ?b] => destruct (String.eqb a b) end;
      lia.
Qed.

Lemma zero_amount_is_neutral_witness :
  same_mapping
    (calculate_token_balances
       ([] ++ transfer_of (PStr "0xA") (PStr "0xB") (PStr "0x0")
           :: [transfer_of (PStr ZERO_ADDRESS) (PStr "0xA") (PStr "9")]))
    (calculate_token_balances
       ([] ++ [transfer_of (PStr ZERO_ADDRESS) (PStr "0xA") (PStr "9")])).
Proof. apply zero_amount_is_neutral; vm_compute; reflexivity. Defined.

(** X3. The letter case of an address does not matter: writing the sender
    or the receiver of a transfer in another case gives the same result,
    entry for entry. *)
Theorem address_case_is_irrelevant
  (l1 l2 : list (gmap string pyval)) (t : gmap string pyval) (key s s' : string) :
  key = "from" \/ key = "to" ->
  t !! key = Some (PStr s) ->
  PyStr.lower s' = PyStr.lower s ->
  calculate_token_balances (l1 ++ <[key := PStr s']> t :: l2)
  = calculate_token_balances (l1 ++ t :: l2).
Proof.
  intros Hkey Hs Hlow. apply calculate_token_balances_replace.
  destruct Hkey as [-> | ->].
  - apply deltas_of_insert_from. left. unfold get. rewrite Hs.
    cbn [lower_method]. rewrite Hlow. reflexivity.
  - apply deltas_of_insert_to. left. unfold get. rewrite Hs.
    cbn [lower_method]. rewrite Hlow. reflexivity.
Qed.

Lemma address_case_is_irrelevant_witness :
  calculate_token_balances
    ([] ++ <["to" := PStr "0XABCDEF"]>
             (transfer_of (PStr ZERO_ADDRESS) (PStr "0xabcdef") (PStr "9")) :: [])
  = calculate_token_balances
      ([] ++ transfer_of (PStr ZERO_ADDRESS) (PStr "0xabcdef") (PStr "9") :: []).
Proof.
  apply (address_case_is_irrelevant [] [] _ "to" "0xabcdef" "0XABCDEF").
  - right. reflexivity.
  - vm_compute. reflexivity.
  - vm_compute. reflexivity.
Defined.

(** ** The reconstruction: conservation *)

Section conservation_facts.
Implicit Types (b : balance_dict) (ds : list (string * Z)) (k : string).

Lemma total_cons k v b : total ((k, v) :: b) = v + total b.
Proof. reflexivity. Qed.

Lemma total_dict_set b k v : total (dict_set b k v) = total b - getitem b k + v.
Proof.
  induction b as [|[k0 v0] b IH].
  - unfold getitem. cbn [dict_set dict_get]. rewrite total_cons.
    change (total []) with 0. lia.
  - cbn [dict_set]. unfold getitem. cbn [dict_get].
    destruct (String.eqb k0 k).
    + rewrite !total_cons. lia.
    + rewrite !total_cons, IH. unfold getitem. lia.
Qed.

Lemma total_iadd b k x : total (iadd b k x) = total b + x.
Proof. unfold iadd. rewrite total_dict_set. lia. Qed.

Lemma total_apply_deltas b ds : total (apply_deltas b ds) = total b + foldr Z.add 0 ds.*2.
Proof.
  revert b. induction ds as [|[k x] ds IH]; intros b.
  - cbn [apply_deltas fold_left fmap list_fmap foldr]. lia.
  - cbn [apply_deltas fold_left]. fold (apply_deltas (iadd b k x) ds).
    rewrite IH, total_iadd, fmap_cons. cbn [foldr snd]. lia.
Qed.

Lemma deltas_of_sum t ds : deltas_of t = Ok ds -> foldr Z.add 0 ds.*2 = supply_change t.
Proof.
  unfold deltas_of, supply_change.
  destruct (lower_method (get t "from" _)) as [f|]; [|discriminate].
  destruct (lower_method (get t "to" _)) as [r|]; [|discriminate].
  cbn [bind]. destruct (convert_value _) as [[v|]|]; cbn [bind]; try discriminate.
  - intros [= <-]. destruct (tracked f), (tracked r); cbn; lia.
  - intros [= <-]. reflexivity.
Qed.

Lemma all_deltas_sum l ds :
  all_deltas l = Ok ds -> foldr Z.add 0 ds.*2 = foldr Z.add 0 (map supply_change l).
Proof.
  revert ds. induction l as [|t l IH]; intros ds.
  - intros [= <-]. reflexivity.
  - cbn [all_deltas]. destruct (deltas_of t) as [d|] eqn:Hd; [|discriminate].
    cbn [bind]. destruct (all_deltas l) as [d'|]; [|discriminate].
    cbn [bind]. intros [= <-]. rewrite fmap_app, foldr_app.
    cbn [map foldr]. rewrite <- (IH d' eq_refl), <- (deltas_of_sum _ _ Hd).
    generalize (foldr Z.add 0 d'.*2). induction d.*2 as [|x xs IHx]; intros z; cbn; [lia|].
    rewrite IHx. lia.
Qed.

Lemma total_positive_only b : total b <= total (positive_only b).
Proof.
  induction b as [|[k v] b IH]; [reflexivity|].
  rewrite positive_only_cons, total_cons.
  destruct (Z.ltb_spec 0 v); [rewrite total_cons|]; lia.
Qed.
End conservation_facts.

(** X4. Conservation. The balances the loop accumulates, before the filter,
    sum to the amounts minted (sender not tracked, receiver tracked) minus
    the amounts burned (the reverse); a transfer between two tracked
    addresses leaves the sum as it is. The mapping returned, which drops the
    non-positive entries, sums to at least that much. *)
Theorem accumulated_total_is_net_minted
  (l : list (gmap string pyval)) (balances : balance_dict) :
  accumulate [] l = Ok balances ->
  total balances = foldr Z.add 0 (map supply_change l) /\
  total balances <= total (positive_only balances) /\
  calculate_token_balances l = Ok (positive_only balances) /\
  (forall t f r, In t l ->
     lower_method (get t "from" (PStr "")) = Ok f ->
     lower_method (get t "to" (PStr "")) = Ok r ->
     tracked f = tracked r -> supply_change t = 0).
Proof.
  intros Hacc. split; [|split; [apply total_positive_only|split]].
  - rewrite accumulate_deltas in Hacc.
    destruct (all_deltas l) as [ds|] eqn:Hds; [|discriminate].
    cbn [bind] in Hacc. injection Hacc as <-.
    rewrite total_apply_deltas, (all_deltas_sum _ _ Hds). reflexivity.
  - unfold calculate_token_balances. rewrite Hacc. reflexivity.
  - intros t f r _ Hf Hr Htr. unfold supply_change. rewrite Hf, Hr, Htr.
    destruct (convert_value _) as [[v|]|]; try reflexivity.
    destruct (tracked r); lia.
Qed.

Lemma accumulated_total_is_net_minted_witness :
  total [("0xa", 4); ("0xb", 3)] =
    foldr Z.add 0 (map supply_change
      [transfer_of (PStr ZERO_ADDRESS) (PStr "0xA") (PStr "9");
       transfer_of (PStr "0xA") (PStr "0xB") (PStr "5");
       transfer_of (PStr "0xb") (PStr "") (PStr "2")]) /\
  total [("0xa", 4); ("0xb", 3)] <= total (positive_only [("0xa", 4); ("0xb", 3)]) /\
  calculate_token_balances
      [transfer_of (PStr ZERO_ADDRESS) (PStr "0xA") (PStr "9");
       transfer_of (PStr "0xA") (PStr "0xB") (PStr "5");
       transfer_of (PStr "0xb") (PStr "") (PStr "2")]
    = Ok (positive_only [("0xa", 4); ("0xb", 3)]) /\
  (forall t f r,
     In t [transfer_of (PStr ZERO_ADDRESS) (PStr "0xA") (PStr "9");
           transfer_of (PStr "0xA") (PStr "0xB") (PStr "5");
           transfer_of (PStr "0xb") (PStr "") (PStr "2")] ->
     lower_method (get t "from" (PStr "")) = Ok f ->
     lower_method (get t "to" (PStr "")) = Ok r ->
     tracked f = tracked r -> supply_change t = 0).
Proof. apply accumulated_total_is_net_minted. vm_compute. reflexivity. Defined.

(** ** The reconstruction: keys, errors, composition *)

Lemma deltas_of_source t ds k x :
  deltas_of t = Ok ds -> (k, x) ∈ ds ->
  exists s, (get t "from" (PStr "") = PStr s \/ get t "to" (PStr "") = PStr s) /\
            k = PyStr.lower s.
Proof.
  unfold deltas_of.
  destruct (get t "from" (PStr "")) as [| | | |s1| |]; try discriminate.
  destruct (get t "to" (PStr "")) as [| | | |s2| |]; try discriminate.
  cbn [lower_method bind].
  destruct (convert_value _) as [[v|]|]; cbn [bind]; try discriminate.
  - intros [= <-] Hin. apply elem_of_app in Hin as [Hin|Hin].
    + destruct (tracked (PyStr.lower s1)); [|inversion Hin].
      apply list_elem_of_singleton in Hin as [= -> ->]. exists s1. auto.
    + destruct (tracked (PyStr.lower s2)); [|inversion Hin].
      apply list_elem_of_singleton in Hin as [= -> ->]. exists s2. auto.
  - intros [= <-] Hin. inversion Hin.
Qed.

Lemma all_deltas_source l ds k x :
  all_deltas l = Ok ds -> (k, x) ∈ ds ->
  exists t, t ∈ l /\ exists d, deltas_of t = Ok d /\ (k, x) ∈ d.
Proof.
  revert ds. induction l as [|t l IH]; intros ds.
  - intros [= <-] Hin. inversion Hin.
  - cbn [all_deltas]. destruct (deltas_of t) as [d1|] eqn:H1; [|discriminate].
    cbn [bind]. destruct (all_deltas l) as [d2|]; [|discriminate].
    cbn [bind]. intros [= <-] Hin. apply elem_of_app in Hin as [Hin|Hin].
    + exists t. split; [left|]. exists d1. auto.
    + destruct (IH d2 eq_refl Hin) as (t' & Ht' & Hd). exists t'. split; [right; exact Ht' | exact Hd].
Qed.

(** X5. The function invents no address: every key of the mapping is the
    lower-cased [from] or [to] of a transfer of the list. *)
Theorem result_keys_come_from_transfers
  (l : list (gmap string pyval)) (d : balance_dict) (a : string) :
  calculate_token_balances l = Ok d ->
  a ∈ d.*1 ->
  exists t s, t ∈ l /\
    (get t "from" (PStr "") = PStr s \/ get t "to" (PStr "") = PStr s) /\
    a = PyStr.lower s.
Proof.
  intros Hd Ha.
  pose proof (calculate_token_balances_spec _ _ Hd) as (ds & Hds & _ & _ & _ & Hget).
  destruct (dict_get d a) as [v|] eqn:Hv; [|apply dict_get_None in Hv; contradiction].
  rewrite Hget in Hv. destruct (touched ds a) eqn:Ht; [|discriminate].
  apply touched_elem in Ht as [x Hin].
  destruct (all_deltas_source _ _ _ _ Hds Hin) as (t & Htl & d0 & Hd0 & Hin0).
  destruct (deltas_of_source _ _ _ _ Hd0 Hin0) as (s & Hs & ->).
  exists t, s. auto.
Qed.

Lemma result_keys_come_from_transfers_witness :
  exists t s,
    t ∈ [transfer_of (PStr ZERO_ADDRESS) (PStr "0xAB") (PStr "9")] /\
    (get t "from" (PStr "") = PStr s \/ get t "to" (PStr "") = PStr s) /\
    "0xab" = PyStr.lower s.
Proof.
  apply (result_keys_come_from_transfers _ [("0xab", 9)]).
  - vm_compute. reflexivity.
  - left.
Defined.

Lemma deltas_of_well_formed t : is_ok (deltas_of t) = well_formed t.
Proof.
  unfold deltas_of, well_formed, addresses_are_strings.
  destruct (lower_method (get t "from" _)); [|reflexivity].
  destruct (lower_method (get t "to" _)); [|reflexivity].
  cbn [bind is_ok andb].
  destruct (get t "value" (PStr "0x0")) as [|b|z|f|s| |]; try reflexivity.
  - destruct f; reflexivity.
  - rewrite convert_value_str. cbn [bind]. destruct (PyStr.int_of_str s _); reflexivity.
Qed.

Lemma deltas_of_raise t e : deltas_of t = Raise e -> e = AttributeError \/ e = OverflowError.
Proof.
  unfold deltas_of.
  destruct (get t "from" (PStr "")) as [| | | |s1| |]; cbn [lower_method bind];
    try (intros [= <-]; left; reflexivity).
  destruct (get t "to" (PStr "")) as [| | | |s2| |]; cbn [lower_method bind];
    try (intros [= <-]; left; reflexivity).
  destruct (get t "value" (PStr "0x0")) as [|b|z|f|s| |]; try discriminate.
  - destruct f; try discriminate. intros [= <-]. right. reflexivity.
  - rewrite convert_value_str. cbn [bind]. destruct (PyStr.int_of_str s _); discriminate.
Qed.

(** X6. The function raises exactly when some record is ill-formed: a
    [from] or [to] that is present and not a string ([AttributeError]), or a
    value that is an infinite float ([OverflowError]). It raises nothing
    else. *)
Theorem calculate_token_balances_raises_iff (l : list (gmap string pyval)) :
  (is_ok (calculate_token_balances l) = forallb well_formed l) /\
  (forall e, calculate_token_balances l = Raise e ->
             e = AttributeError \/ e = OverflowError).
Proof.
  rewrite calculate_token_balances_deltas. split.
  - induction l as [|t l IH]; [reflexivity|].
    cbn [all_deltas forallb]. rewrite <- deltas_of_well_formed.
    destruct (deltas_of t); cbn [bind is_ok andb]; [|reflexivity].
    rewrite <- IH. destruct (all_deltas l); reflexivity.
  - induction l as [|t l IH]; intros e; [discriminate|].
    cbn [all_deltas]. destruct (deltas_of t) as [d|e'] eqn:Hd; cbn [bind].
    + destruct (all_deltas l) as [d'|e'']; cbn [bind] in *; [discriminate|].
      intros [= <-]. apply IH. reflexivity.
    + intros [= <-]. eapply deltas_of_raise, Hd.
Qed.

Lemma calculate_token_balances_raises_iff_witness :
  AttributeError = AttributeError \/ AttributeError = OverflowError.
Proof.
  apply (proj2 (calculate_token_balances_raises_iff
                  [transfer_of PNone (PStr "0xB") (PStr "5")]) AttributeError).
  vm_compute. reflexivity.
Defined.

(** X7. The sign of an amount is not checked: a negative amount is applied
    as written, so that a transfer of [-v] from one address to another has
    the effect of a transfer of [v] the other way. *)
Theorem negative_amount_reverses_transfer
  (l1 l2 : list (gmap string pyval)) (t t' : gmap string pyval) (v : Z) :
  addresses_are_strings t = true ->
  get t' "from" (PStr "") = get t "to" (PStr "") ->
  get t' "to" (PStr "") = get t "from" (PStr "") ->
  convert_value (get t "value" (PStr "0x0")) = Ok (Some (- v)) ->
  convert_value (get t' "value" (PStr "0x0")) = Ok (Some v) ->
  same_mapping (calculate_token_balances (l1 ++ t :: l2))
               (calculate_token_balances (l1 ++ t' :: l2)).
Proof.
  intros Haddr Hf Ht Hv Hv'. unfold addresses_are_strings in Haddr.
  apply andb_true_iff in Haddr as [Hfrom Hto].
  apply same_mapping_replace. unfold deltas_of. rewrite Hf, Ht, Hv, Hv'.
  destruct (lower_method (get t "from" _)) as [f|]; [|discriminate].
  destruct (lower_method (get t "to" _)) as [r|]; [|discriminate].
  cbn [bind]. intros k.
  destruct (tracked f), (tracked r); cbn [app]; rewrite ?net_cons; change (net [] k) with 0;
    repeat match goal with |- context [String.eqb ?a ?b] => destruct (String.eqb a b) end;
    lia.
Qed.

Lemma negative_amount_reverses_transfer_witness :
  same_mapping
    (calculate_token_balances
       ([transfer_of (PStr ZERO_ADDRESS) (PStr "0xA") (PStr "9")]
        ++ transfer_of (PStr "0xB") (PStr "0xA") (PStr "-5") :: []))
    (calculate_token_balances
       ([transfer_of (PStr ZERO_ADDRESS) (PStr "0xA") (PStr "9")]
        ++ transfer_of (PStr "0xA") (PStr "0xB") (PStr "5") :: [])).
Proof.
  apply (negative_amount_reverses_transfer _ _ _ _ 5); vm_compute; reflexivity.
Defined.

(** X8. Histories add up: when the loop runs on two lists put end to end,
    it runs on each of them, and what it accumulates for an address is the
    sum of what it accumulates on the one and on the other. *)
Theorem accumulate_is_additive
  (l1 l2 : list (gmap string pyval)) (balances : balance_dict) :
  accumulate [] (l1 ++ l2) = Ok balances ->
  exists b1 b2,
    accumulate [] l1 = Ok b1 /\ accumulate [] l2 = Ok b2 /\
    forall a, getitem balances a = getitem b1 a + getitem b2 a.
Proof.
  rewrite !accumulate_deltas, all_deltas_app.
  destruct (all_deltas l1) as [d1|]; cbn [bind]; [|discriminate].
  destruct (all_deltas l2) as [d2|]; cbn [bind]; [|discriminate].
  intros [= <-]. eexists _, _. split; [reflexivity|]. split; [reflexivity|].
  intros a. unfold getitem. rewrite !dict_get_apply_deltas, touched_app, net_app.
  change (dict_get [] a) with (@None Z). change (getitem [] a) with 0.
  destruct (touched d1 a) eqn:H1, (touched d2 a) eqn:H2; cbn [orb];
    rewrite ?(net_untouched _ _ H1), ?(net_untouched _ _ H2); lia.
Qed.

Lemma accumulate_is_additive_witness :
  exists b1 b2,
    accumulate [] [transfer_of (PStr ZERO_ADDRESS) (PStr "0xA") (PStr "9")] = Ok b1 /\
    accumulate [] [transfer_of (PStr "0xA") (PStr "0xB") (PStr "5")] = Ok b2 /\
    forall a, getitem [("0xa", 4); ("0xb", 5)] a = getitem b1 a + getitem b2 a.
Proof.
  apply (accumulate_is_additive
           [transfer_of (PStr ZERO_ADDRESS) (PStr "0xA") (PStr "9")]
           [transfer_of (PStr "0xA") (PStr "0xB") (PStr "5")]).
  vm_compute. reflexivity.
Defined.

(** ** The fetcher: end of the pagination and page keys *)

(** X9. The pagination ends at the first reply that has no page key or an
    empty batch, even if that reply names a next page: the function returns
    the batches up to and including that reply, and asks nothing more. *)
Theorem get_asset_transfers_complete
  (pages : list (list (gmap string pyval) * string)) (last : endpoint)
  (rest : list endpoint) (contract_address : string) (final : transfers_result) :
  Forall (fun '(batch, key) => batch <> [] /\ key <> "") pages ->
  _make_request last "alchemy_getAssetTransfers"
    (page_params contract_address (next_key pages)) = Ok final ->
  last_page final = true ->
  get_asset_transfers
    (map (fun '(batch, key) => full_page batch key) pages ++ last :: rest)
    contract_address
  = Some (concat (map fst pages) ++ batch_of final)%list.
Proof.
  intros Hall Hlast Hend. unfold get_asset_transfers.
  rewrite fetch_pages_full_pages by exact Hall.
  assert (Hkey : match pages with [] => None | _ :: _ => next_key pages end = next_key pages)
    by (destruct pages; reflexivity).
  rewrite Hkey. cbn [fetch_pages app]. rewrite Hlast.
  unfold last_page, batch_of in Hend. rewrite Hend. reflexivity.
Qed.

Lemma get_asset_transfers_complete_witness :
  get_asset_transfers
    (map (fun '(batch, key) => full_page batch key)
       [([transfer_of (PStr ZERO_ADDRESS) (PStr "0xA") (PStr "0x64")], "k1")]
     ++ answers (Reply None (Some {| transfers_field := Some [];
                                      pageKey_field := Some "k2" |}))
     :: [answers (RequestFailed "never asked")])
    "0x1234567890123456789012345678901234567890"
  = Some (concat (map fst
       [([transfer_of (PStr ZERO_ADDRESS) (PStr "0xA") (PStr "0x64")], "k1")])
     ++ batch_of {| transfers_field := Some []; pageKey_field := Some "k2" |})%list.
Proof.
  apply get_asset_transfers_complete.
  - repeat (apply Forall_cons; split; [split; discriminate|]). apply Forall_nil_2.
  - reflexivity.
  - reflexivity.
Defined.

Lemma expecting_answers c key outcome :
  key = None \/ page_key_truthy key = true ->
  expecting c key outcome "alchemy_getAssetTransfers" (page_params c key) = outcome.
Proof.
  intros Hkey. unfold expecting. rewrite bool_decide_eq_true_2; [reflexivity|].
  repeat split. cbn [page_params pageKey].
  destruct Hkey as [-> | ->]; reflexivity.
Qed.

Lemma next_key_valid pages :
  Forall (fun '(batch, key) => batch <> [] /\ key <> "") pages ->
  next_key pages = None \/ page_key_truthy (next_key pages) = true.
Proof.
  intros Hall. destruct pages as [|p pages]; [left; reflexivity|]. right.
  unfold next_key.
  assert (Hlast : List.last (p :: pages) ([], "") ∈ p :: pages).
  { apply list_elem_of_In. destruct (exists_last (l := p :: pages)) as (l' & x & Hx);
      [discriminate|]. rewrite Hx, last_last. apply in_or_app. right. left. reflexivity. }
  rewrite Forall_forall in Hall. specialize (Hall _ Hlast).
  destruct (List.last (p :: pages) ([], "")) as [batch key]. destruct Hall as [_ Hk].
  cbn [snd page_key_truthy]. destruct key; [congruence | reflexivity].
Qed.

Lemma fetch_pages_expecting_pages pages rest c acc key0 :
  key0 = None \/ page_key_truthy key0 = true ->
  Forall (fun '(batch, key) => batch <> [] /\ key <> "") pages ->
  fetch_pages (expecting_pages c key0 pages ++ rest) c acc key0 =
    fetch_pages rest c (acc ++ concat (map fst pages))
      (match pages with [] => key0 | _ => next_key pages end).
Proof.
  revert acc key0. induction pages as [|[batch key] pages IH]; intros acc key0 Hkey Hall.
  - cbn [expecting_pages map app concat]. rewrite app_nil_r. reflexivity.
  - apply Forall_cons in Hall as [[Hb Hk] Hall].
    cbn [expecting_pages app fetch_pages]. unfold _make_request.
    rewrite (expecting_answers _ _ _ Hkey). cbn [transfers_field pageKey_field].
    destruct batch as [|t batch]; [congruence|]. destruct key as [|ch key]; [congruence|].
    cbn [page_key_truthy PyStr.truthy is_empty negb orb].
    rewrite IH; [|right; reflexivity|exact Hall].
    cbn [map concat fst]. rewrite <- app_assoc.
    destruct pages as [|p pages]; reflexivity.
Qed.

(** X10. Each request of the listing carries the page key that the reply
    before returned, and the first carries none: against endpoints that
    answer only such requests (and only with the method, category, contract,
    flags and page size of the listing), the pages are all fetched. *)
Theorem requests_carry_page_keys
  (pages : list (list (gmap string pyval) * string)) (final : transfers_result)
  (rest : list endpoint) (contract_address : string) :
  Forall (fun '(batch, key) => batch <> [] /\ key <> "") pages ->
  last_page final = true ->
  get_asset_transfers
    (expecting_pages contract_address None pages
     ++ expecting contract_address (next_key pages) (Reply None (Some final)) :: rest)
    contract_address
  = Some (concat (map fst pages) ++ batch_of final)%list.
Proof.
  intros Hall Hend. unfold get_asset_transfers.
  rewrite fetch_pages_expecting_pages; [|left; reflexivity|exact Hall].
  assert (Hkey : match pages with [] => None | _ :: _ => next_key pages end = next_key pages)
    by (destruct pages; reflexivity).
  rewrite Hkey. cbn [fetch_pages app]. unfold _make_request.
  rewrite (expecting_answers _ _ _ (next_key_valid _ Hall)).
  unfold last_page, batch_of in Hend. rewrite Hend. reflexivity.
Qed.

Lemma requests_carry_page_keys_witness :
  get_asset_transfers
    (expecting_pages "0x1234567890123456789012345678901234567890" None
       [([transfer_of (PStr ZERO_ADDRESS) (PStr "0xA") (PStr "0x64")], "k1");
        ([transfer_of (PStr "0xa") (PStr "0xB") (PStr "0x32")], "k2")]
     ++ expecting "0x1234567890123456789012345678901234567890"
          (next_key
             [([transfer_of (PStr ZERO_ADDRESS) (PStr "0xA") (PStr "0x64")], "k1");
              ([transfer_of (PStr "0xa") (PStr "0xB") (PStr "0x32")], "k2")])
          (Reply None (Some {| transfers_field := Some []; pageKey_field := None |}))
     :: [])
    "0x1234567890123456789012345678901234567890"
  = Some (concat (map fst
       [([transfer_of (PStr ZERO_ADDRESS) (PStr "0xA") (PStr "0x64")], "k1");
        ([transfer_of (PStr "0xa") (PStr "0xB") (PStr "0x32")], "k2")])
     ++ batch_of {| transfers_field := Some []; pageKey_field := None |})%list.
Proof.
  apply requests_carry_page_keys.
  - repeat (apply Forall_cons; split; [split; discriminate|]). apply Forall_nil_2.
  - reflexivity.
Defined.

(** A request with another page key than the expected one is refused: the
    endpoints of [expecting_pages] do tell the keys apart. *)
Example expecting_refuses_other_key :
  get_asset_transfers
    (expecting_pages "0xc" None [([transfer_of (PStr ZERO_ADDRESS) (PStr "0xA") (PStr "1")], "k1")]
     ++ [expecting "0xc" (Some "other")
           (Reply None (Some {| transfers_field :=
                                  Some [transfer_of (PStr ZERO_ADDRESS) (PStr "0xB") (PStr "2")];
                                pageKey_field := None |}))])
    "0xc"
  = Some [transfer_of (PStr ZERO_ADDRESS) (PStr "0xA") (PStr "1")].
Proof. vm_compute. reflexivity. Qed.

(** ** The ranking *)

Section ranking_facts.
Implicit Types (balances : balance_dict) (n : Z).

Lemma rank_top_prefix balances n :
  exists tail, sorted_desc balances = (rank_top balances n ++ tail)%list.
Proof.
  unfold rank_top. destruct balances as [|p balances]; [exists []; reflexivity|].
  cbn [is_empty]. apply slice_to_prefix.
Qed.

Lemma rank_top_elem balances n e : e ∈ rank_top balances n -> e ∈ balances.
Proof.
  intros He. destruct (rank_top_prefix balances n) as [tail Ht].
  rewrite <- (sorted_desc_perm balances), Ht. apply elem_of_app. left. exact He.
Qed.

Lemma rank_top_NoDup balances n : NoDup balances.*1 -> NoDup (rank_top balances n).*1.
Proof.
  intros Hnd. destruct (rank_top_prefix balances n) as [tail Ht].
  assert (Hs : NoDup (sorted_desc balances).*1).
  { rewrite (sorted_desc_perm balances). exact Hnd. }
  rewrite Ht, fmap_app in Hs. apply NoDup_app in Hs as [Hs _]. exact Hs.
Qed.

Lemma slice_to_length_exact {A} (s : list A) n :
  0 <= n -> length (slice_to s n) = Nat.min (Z.to_nat n) (length s).
Proof.
  intros Hn. unfold slice_to. destruct (Z.ltb_spec n 0); [lia|]. apply length_firstn.
Qed.

Lemma sorted_desc_length balances : length (sorted_desc balances) = length balances.
Proof. apply Permutation_length, sorted_desc_perm. Qed.
End ranking_facts.

(** X11. What a ranking lists: every entry of a ranking that
    [get_top_holders] returns has a strictly positive balance and a
    lower-case address that is neither empty nor the zero address, and no
    address is listed twice. *)
Theorem get_top_holders_entries
  (api : list endpoint) (contract_address : string) (top_n : Z)
  (ranking : list (string * Z)) :
  get_top_holders api contract_address top_n = Some (Ok ranking) ->
  NoDup ranking.*1 /\
  forall a v, (a, v) ∈ ranking ->
    0 < v /\ a <> "" /\ a <> ZERO_ADDRESS /\ PyStr.lower a = a.
Proof.
  unfold get_top_holders.
  destruct (get_asset_transfers api contract_address) as [transfers|]; [|discriminate].
  destruct (is_empty transfers).
  { intros [= <-]. split; [constructor | intros a v Hin; inversion Hin]. }
  destruct (calculate_token_balances transfers) as [balances|] eqn:Hcalc; [|discriminate].
  cbn [bind]. intros [= <-].
  pose proof (calculate_token_balances_spec _ _ Hcalc) as (ds & Hds & _ & Hbal & Hnd & Hget).
  split; [apply rank_top_NoDup, Hnd|].
  intros a v Hin. apply rank_top_elem in Hin.
  assert (Hpos : 0 < v).
  { rewrite Hbal in Hin. apply positive_only_elem in Hin as [_ Hv]. exact Hv. }
  split; [exact Hpos|].
  apply dict_get_Some in Hin; [|exact Hnd]. rewrite Hget in Hin.
  destruct (touched ds a) eqn:Ht; [|discriminate].
  apply touched_elem in Ht as [x Hx].
  destruct (all_deltas_keys _ _ _ _ Hds Hx) as [Htr Hlow].
  unfold tracked in Htr. apply andb_true_iff in Htr as [Hne Hz].
  split; [intros ->; discriminate Hne|]. split; [|exact Hlow].
  intros ->. discriminate Hz.
Qed.

Lemma get_top_holders_entries_witness :
  NoDup [("0xa", 68); ("0xb", 32)].*1 /\
  forall a v, (a, v) ∈ [("0xa", 68); ("0xb", 32)] ->
    0 < v /\ a <> "" /\ a <> ZERO_ADDRESS /\ PyStr.lower a = a.
Proof.
  apply (get_top_holders_entries
           [full_page [transfer_of (PStr ZERO_ADDRESS) (PStr "0xA") (PStr "0x64")] "k1";
            answers (Reply None (Some {| transfers_field :=
                       Some [transfer_of (PStr "0xa") (PStr "0xB") (PStr "0x20")];
                     pageKey_field := None |}))]
           "0x1234567890123456789012345678901234567890" 20).
  vm_compute. reflexivity.
Defined.

(** X12. For a count [top_n >= 0] the ranking has exactly
    [min(top_n, number of holders)] entries; when [top_n] is at least the
    number of holders it lists every holder. *)
Theorem rank_top_length (balances : balance_dict) (top_n : Z) :
  0 <= top_n ->
  length (rank_top balances top_n) = Nat.min (Z.to_nat top_n) (length balances) /\
  (Z.of_nat (length balances) <= top_n -> rank_top balances top_n ≡ₚ balances).
Proof.
  intros Hn. unfold rank_top. destruct balances as [|p balances].
  - split; [cbn; lia | reflexivity].
  - cbn [is_empty]. split.
    + rewrite slice_to_length_exact by exact Hn. rewrite sorted_desc_length. reflexivity.
    + intros Hlen. unfold slice_to. destruct (Z.ltb_spec top_n 0); [lia|].
      rewrite firstn_all2 by (rewrite sorted_desc_length; lia).
      apply sorted_desc_perm.
Qed.

Lemma rank_top_length_witness :
  length (rank_top [("0xa", 1); ("0xb", 3); ("0xc", 2)] 5)
    = Nat.min (Z.to_nat 5) (length [("0xa", 1); ("0xb", 3); ("0xc", 2)]) /\
  (Z.of_nat (length [("0xa", 1); ("0xb", 3); ("0xc", 2)]) <= 5 ->
   rank_top [("0xa", 1); ("0xb", 3); ("0xc", 2)] 5 ≡ₚ [("0xa", 1); ("0xb", 3); ("0xc", 2)]).
Proof. apply rank_top_length. lia. Defined.

(** X13. Ties: holders of one balance are ranked in the order they have in
    the mapping (the insertion order of the dictionary), and the listed ones
    are the first of them. *)
Theorem rank_top_ties_in_mapping_order (balances : balance_dict) (top_n v : Z) :
  filter (fun e => e.2 = v) (rank_top balances top_n)
    `prefix_of` filter (fun e => e.2 = v) balances.
Proof.
  destruct (rank_top_prefix balances top_n) as [tail Ht].
  exists (filter (fun e => e.2 = v) tail).
  rewrite <- filter_app, <- Ht. symmetry. apply sorted_desc_stable.
Qed.

(** X14. A ranking after a failed page is computed from the pages fetched
    before, and is the one the caller would get if the API had answered that
    the listing was over: nothing in the result tells one from the other. *)
Theorem partial_ranking_looks_complete
  (pages : list (list (gmap string pyval) * string)) (failed : endpoint)
  (rest rest' : list endpoint) (contract_address : string) (e : exn) (top_n : Z) :
  Forall (fun '(batch, key) => batch <> [] /\ key <> "") pages ->
  _make_request failed "alchemy_getAssetTransfers"
    (page_params contract_address (next_key pages)) = Raise e ->
  get_top_holders
    (map (fun '(batch, key) => full_page batch key) pages ++ failed :: rest)
    contract_address top_n
  = get_top_holders
      (map (fun '(batch, key) => full_page batch key) pages
       ++ answers (Reply None None) :: rest')
      contract_address top_n.
Proof.
  intros Hall Hfail. unfold get_top_holders, get_asset_transfers.
  rewrite !fetch_pages_full_pages by exact Hall.
  assert (Hkey : match pages with [] => None | _ :: _ => next_key pages end = next_key pages)
    by (destruct pages; reflexivity).
  rewrite Hkey. cbn [fetch_pages]. rewrite Hfail.
  cbn [_make_request answers empty_result transfers_field pageKey_field
       page_key_truthy negb orb].
  rewrite !app_nil_r. reflexivity.
Qed.

Lemma partial_ranking_looks_complete_witness :
  get_top_holders
    (map (fun '(batch, key) => full_page batch key)
       [([transfer_of (PStr ZERO_ADDRESS) (PStr "0xA") (PStr "0x64")], "k1")]
     ++ answers (RequestFailed "timed out") :: [])
    "0x1234567890123456789012345678901234567890" 20
  = get_top_holders
      (map (fun '(batch, key) => full_page batch key)
         [([transfer_of (PStr ZERO_ADDRESS) (PStr "0xA") (PStr "0x64")], "k1")]
       ++ answers (Reply None None) :: [])
      "0x1234567890123456789012345678901234567890" 20.
Proof.
  apply (partial_ranking_looks_complete _ _ _ _ _
           (Exception "Failed to connect to Alchemy API: timed out")).
  - repeat (apply Forall_cons; split; [split; discriminate|]). apply Forall_nil_2.
  - reflexivity.
Defined.

(** ** The fetcher: termination *)

Lemma fetch_pages_terminates api c acc key :
  Exists stops_the_loop api -> is_Some (fetch_pages api c acc key).
Proof.
  intros Hex. revert acc key. induction Hex as [post api Hstop|post api _ IH]; intros acc key.
  - cbn [fetch_pages]. specialize (Hstop (page_params c key)).
    destruct (_make_request post _ _) as [r|]; [|eexists; reflexivity].
    unfold last_page, batch_of in Hstop. rewrite Hstop. eexists; reflexivity.
  - cbn [fetch_pages]. destruct (_make_request post _ _) as [r|]; [|eexists; reflexivity].
    destruct (negb _ || _); [eexists; reflexivity | apply IH].
Qed.

(** X15. The pagination loop comes to an end as soon as one request fails
    or one reply is a last page: against an API in which that happens at
    some point, [get_asset_transfers] returns a list and [get_top_holders]
    returns a ranking or raises. *)
Theorem get_asset_transfers_terminates
  (api : list endpoint) (contract_address : string) (top_n : Z) :
  Exists stops_the_loop api ->
  is_Some (get_asset_transfers api contract_address) /\
  is_Some (get_top_holders api contract_address top_n).
Proof.
  intros Hex.
  assert (Hget : is_Some (get_asset_transfers api contract_address))
    by (apply fetch_pages_terminates, Hex).
  split; [exact Hget|]. unfold get_top_holders.
  destruct Hget as [transfers ->]. eexists; reflexivity.
Qed.

Lemma get_asset_transfers_terminates_witness :
  is_Some (get_asset_transfers
             [full_page [transfer_of (PStr ZERO_ADDRESS) (PStr "0xA") (PStr "1")] "k1";
              answers (Reply None None)] "0xc") /\
  is_Some (get_top_holders
             [full_page [transfer_of (PStr ZERO_ADDRESS) (PStr "0xA") (PStr "1")] "k1";
              answers (Reply None None)] "0xc" 20).
Proof.
  apply get_asset_transfers_terminates.
  apply Exists_cons_tl, Exists_cons_hd. intros params. reflexivity.
Defined.

(** ** [format_balance]: where it returns, and small balances *)

Section format_facts.

Lemma pos_iter_xO m d : Z.pos (Pos.iter xO m d) = Z.pos m * 2 ^ Z.pos d.
Proof.
  induction d as [|d IH] using Pos.peano_ind.
  - cbn [Pos.iter]. rewrite Pos2Z.inj_xO. change (2 ^ 1) with 2. lia.
  - rewrite Pos.iter_succ, (Pos2Z.inj_xO (Pos.iter xO m d)), IH, Pos2Z.inj_succ.
    rewrite Z.pow_succ_r by lia. lia.
Qed.

Lemma binary_round_not_infinity sx m s :
  Z.pos m < 2 ^ 1023 -> binary_round 53 1024 sx m 0 <> S754_infinity s.
Proof.
  intros Hm. unfold binary_round, shl_align.
  destruct (fexp 53 1024 (Z.pos (digits2_pos m) + 0) - 0) as [|e|d] eqn:He.
  - apply binary_round_aux_not_infinity with (D := 1023); lia.
  - apply binary_round_aux_not_infinity with (D := 1023); lia.
  - assert (Hfe : fexp 53 1024 (Z.pos (digits2_pos m) + 0) = Z.neg d) by lia.
    rewrite Hfe.
    apply binary_round_aux_not_infinity with (D := 1023 + Z.pos d); try lia.
    rewrite pos_iter_xO, Z.pow_add_r by lia.
    assert (0 < 2 ^ Z.pos d) by (apply Z.pow_pos_nonneg; lia). nia.
Qed.

Lemma of_int_ok z : 0 <= z < 2 ^ 1023 -> exists f, PyFloat.of_int z = Ok f.
Proof.
  intros Hz. unfold PyFloat.of_int, PyFloat.prec, PyFloat.emax.
  destruct z as [|m|m]; [eexists; reflexivity| |lia].
  cbn [binary_normalize].
  pose proof (fun s => binary_round_not_infinity false m s ltac:(lia)) as Hinf.
  destruct (binary_round 53 1024 false m 0) as [s|s| |s m' e]; try (eexists; reflexivity).
  exfalso. apply (Hinf s). reflexivity.
Qed.

Lemma format_balance_below_trillion balance decimals :
  balance < 10 ^ 12 ->
  format_balance balance decimals = format_balance balance 0.
Proof.
  intros Hlt. apply Z.ltb_lt in Hlt. unfold format_balance, readable_balance.
  rewrite Hlt. reflexivity.
Qed.

Lemma format_balance_small_checked :
  forallb (fun n => match format_balance (Z.of_nat n) 0 with
                    | Ok s => String.eqb s (PyFloat.decimal (Z.of_nat n))
                    | Raise _ => false
                    end) (seq 0 1000) = true.
Proof. vm_compute. reflexivity. Qed.
End format_facts.

(** X16. [format_balance] returns a string for every balance from 0 up to
    [2^1023], whatever the number of decimals: no sum of amounts of 256 bits
    that a token can reach makes it raise. *)
Theorem format_balance_returns (balance : Z) (decimals : N) :
  0 <= balance < 2 ^ 1023 ->
  exists s, format_balance balance decimals = Ok s.
Proof.
  intros [H0 Hmax]. unfold format_balance, readable_balance.
  destruct (Z.ltb_spec balance (10 ^ 12)) as [Hlt|Hge]; cbn [bind].
  - cbn [num_ge]. destruct (Z.leb_spec 1000000 balance) as [HM|HM].
    + cbn [num_truediv]. destruct (int_truediv_ok balance 1000000) as [q ->]; [lia|lia|].
      eexists; reflexivity.
    + destruct (Z.leb_spec 1000 balance) as [HK|HK].
      * cbn [num_truediv]. destruct (int_truediv_ok balance 1000) as [q ->]; [lia|lia|].
        eexists; reflexivity.
      * cbn [num_format_f]. destruct (of_int_ok balance) as [f ->]; [lia|].
        eexists; reflexivity.
  - destruct (int_truediv_ok balance (10 ^ Z.of_N decimals)) as [q ->].
    + split; [|exact Hmax]. apply Z.lt_le_trans with (10 ^ 12); [reflexivity | exact Hge].
    + apply Z.pow_pos_nonneg; lia.
    + cbn [bind]. destruct (num_ge (NFloat q) 1000000); [eexists; reflexivity|].
      destruct (num_ge (NFloat q) 1000); eexists; reflexivity.
Qed.

Lemma format_balance_returns_witness :
  exists s, format_balance (2 ^ 256 - 1) 18 = Ok s.
Proof. apply format_balance_returns. split; [vm_compute; discriminate | reflexivity]. Defined.

(** X17. A whole balance below 1000 is written as the integer itself,
    without a decimal point and without a suffix, whatever the number of
    decimals. *)
Theorem format_balance_small (balance : Z) (decimals : N) :
  0 <= balance < 1000 ->
  format_balance balance decimals = Ok (PyFloat.decimal balance).
Proof.
  intros [H0 Hlt].
  rewrite format_balance_below_trillion
    by (apply Z.lt_trans with 1000; [exact Hlt | reflexivity]).
  pose proof format_balance_small_checked as Hall.
  rewrite forallb_forall in Hall. specialize (Hall (Z.to_nat balance)).
  rewrite Z2Nat.id in Hall by exact H0.
  assert (Hin : In (Z.to_nat balance) (seq 0 1000)) by (apply in_seq; lia).
  specialize (Hall Hin).
  destruct (format_balance balance 0) as [s|]; [|discriminate].
  apply String.eqb_eq in Hall. rewrite Hall. reflexivity.
Qed.

Lemma format_balance_small_witness :
  format_balance 999 6 = Ok (PyFloat.decimal 999).
Proof. apply format_balance_small. lia. Defined.

(** ** [shorten_address] and [is_valid_address] *)

Section string_facts.
Implicit Types (s t : string).

Lemma str_length_app s t : String.length (s ++ t) = (String.length s + String.length t)%nat.
Proof.
  induction s as [|c s IH]; simpl; [reflexivity | rewrite IH; reflexivity].
Qed.

Lemma str_take_app s t : str_take (String.length s) (s ++ t) = s.
Proof.
  induction s as [|c s IH]; simpl; [destruct t; reflexivity | rewrite IH; reflexivity].
Qed.

Lemma str_drop_app s t : PyStr.drop (String.length s) (s ++ t) = t.
Proof.
  induction s as [|c s IH]; simpl; [reflexivity | exact IH].
Qed.

Lemma str_suffix_app s t : str_suffix (String.length t) (s ++ t) = t.
Proof.
  unfold str_suffix. rewrite str_length_app.
  replace (String.length s + String.length t - String.length t)%nat
    with (String.length s) by lia.
  apply str_drop_app.
Qed.

Lemma str_take_app_n n s t : String.length s = n -> str_take n (s ++ t) = s.
Proof. intros <-. apply str_take_app. Qed.

Lemma str_suffix_app_n n s t : String.length t = n -> str_suffix n (s ++ t) = t.
Proof. intros <-. apply str_suffix_app. Qed.

Lemma str_append_cons c s t : String c s ++ t = String c (s ++ t).
Proof. reflexivity. Qed.

Lemma str_append_assoc s t u : (s ++ t) ++ u = s ++ t ++ u.
Proof.
  induction s as [|c s IH]; [reflexivity|]. rewrite !str_append_cons, IH. reflexivity.
Qed.

Lemma startswith_0x_length s :
  PyStr.startswith s "0x" = true ->
  String.length s = S (S (String.length (PyStr.drop 2 s))).
Proof.
  destruct s as [|a [|b s]]; cbn [PyStr.startswith PyStr.drop String.length].
  - discriminate.
  - destruct (Ascii.eqb "0" a); discriminate.
  - reflexivity.
Qed.
End string_facts.

(** X18. [shorten_address] keeps the first six and the last four characters
    of an address of ten characters or more and puts three dots for what
    lies between, so that the result has thirteen characters; a shorter
    string is returned as it is. *)
Theorem shorten_address_spec :
  (forall address, (String.length address < 10)%nat -> shorten_address address = address) /\
  (forall head middle tail,
     String.length head = 6%nat -> String.length tail = 4%nat ->
     shorten_address (head ++ middle ++ tail) = head ++ "..." ++ tail /\
     String.length (shorten_address (head ++ middle ++ tail)) = 13%nat).
Proof.
  split.
  - intros address Hlen. unfold shorten_address, PyStr.len.
    destruct (Z.ltb_spec (Z.of_nat (String.length address)) 10); [reflexivity | lia].
  - intros head middle tail Hh Ht.
    assert (Heq : shorten_address (head ++ middle ++ tail) = head ++ "..." ++ tail).
    { unfold shorten_address, PyStr.len. rewrite !str_length_app, Hh, Ht.
      destruct (Z.ltb_spec (Z.of_nat (6 + (String.length middle + 4))) 10); [lia|].
      rewrite (str_take_app_n 6 _ _ Hh), <- (str_append_assoc head middle tail),
        (str_suffix_app_n 4 _ _ Ht).
      reflexivity. }
    split; [exact Heq|]. rewrite Heq, !str_length_app, Hh, Ht. reflexivity.
Qed.

Lemma shorten_address_spec_witness :
  shorten_address ("0x1234" ++ "56789012345678901234567890123456" ++ "7890")
    = "0x1234" ++ "..." ++ "7890" /\
  String.length
    (shorten_address ("0x1234" ++ "56789012345678901234567890123456" ++ "7890")) = 13%nat.
Proof. apply (proj2 shorten_address_spec); reflexivity. Defined.

(** X19. An address that [is_valid_address] accepts has forty-two
    characters when it starts with [0x] and forty otherwise. *)
Theorem is_valid_address_length (s : string) :
  is_valid_address (PStr s) = true ->
  String.length s = if PyStr.startswith s "0x" then 42%nat else 40%nat.
Proof.
  unfold is_valid_address. destruct (negb (PyStr.truthy s)); [discriminate|].
  destruct (PyStr.startswith s "0x") eqn:Hpre.
  - destruct (Z.eqb_spec (PyStr.len (PyStr.drop 2 s)) 40) as [Hlen|]; [|discriminate].
    intros _. rewrite (startswith_0x_length _ Hpre). unfold PyStr.len in Hlen. lia.
  - destruct (Z.eqb_spec (PyStr.len s) 40) as [Hlen|]; [|discriminate].
    intros _. unfold PyStr.len in Hlen. lia.
Qed.

Lemma is_valid_address_length_witness :
  String.length "0xabababababababababababababababababababab"
  = if PyStr.startswith "0xabababababababababababababababababababab" "0x"
    then 42%nat else 40%nat.
Proof. apply is_valid_address_length. vm_compute. reflexivity. Defined.

(** ** The reconstruction: float amounts and other fields *)

(** X20. A float amount is truncated toward zero: for the float of sign [s]
    and magnitude [m * 2^e], the amount applied has the same sign and the
    magnitude [v] with [v <= m * 2^e < v + 1]; a magnitude below 1 counts
    as 0. *)
Theorem float_amount_is_truncated (s : bool) (m : positive) (e : Z) :
  exists v,
    convert_value (PFloat (S754_finite s m e)) = Ok (Some (if s then - v else v)) /\
    0 <= v /\
    (0 <= e -> v = Z.pos m * 2 ^ e) /\
    (e < 0 -> v * 2 ^ (- e) <= Z.pos m < (v + 1) * 2 ^ (- e)) /\
    (e < 0 -> Z.pos m < 2 ^ (- e) -> v = 0).
Proof.
  exists (if 0 <=? e then Z.pos m * 2 ^ e else Z.pos m / 2 ^ (- e)).
  split; [reflexivity|].
  destruct (Z.leb_spec 0 e) as [He|He].
  - split; [|split; [reflexivity|split; lia]].
    assert (0 < 2 ^ e) by (apply Z.pow_pos_nonneg; lia). nia.
  - assert (Hp : 0 < 2 ^ (- e)) by (apply Z.pow_pos_nonneg; lia).
    pose proof (Z.div_mod (Z.pos m) (2 ^ (- e)) ltac:(lia)) as Hdm.
    pose proof (Z.mod_pos_bound (Z.pos m) (2 ^ (- e)) Hp) as Hmod.
    split; [apply Z.div_pos; lia|]. split; [lia|]. split.
    + intros _. nia.
    + intros _ Hlt. apply Z.div_small. lia.
Qed.

Lemma float_amount_is_truncated_witness :
  exists v,
    convert_value (PFloat (S754_finite true 23 (-3))) = Ok (Some (if true then - v else v)) /\
    0 <= v /\
    (0 <= -3 -> v = 23 * 2 ^ (-3)) /\
    (-3 < 0 -> v * 2 ^ (- (-3)) <= 23 < (v + 1) * 2 ^ (- (-3))) /\
    (-3 < 0 -> 23 < 2 ^ (- (-3)) -> v = 0).
Proof. apply (float_amount_is_truncated true 23 (-3)). Defined.

Lemma deltas_of_insert_other t key v :
  key <> "from" -> key <> "to" -> key <> "value" ->
  deltas_of (<[key := v]> t) = deltas_of t.
Proof.
  intros Hf Ht Hv. unfold deltas_of, get.
  rewrite !lookup_insert_ne by assumption. reflexivity.
Qed.

(** X21. Only the fields [from], [to] and [value] of a record are read:
    setting or changing any other field of a transfer leaves the result as
    it is. *)
Theorem other_fields_are_ignored
  (l1 l2 : list (gmap string pyval)) (t : gmap string pyval) (key : string) (v : pyval) :
  key <> "from" -> key <> "to" -> key <> "value" ->
  calculate_token_balances (l1 ++ <[key := v]> t :: l2)
  = calculate_token_balances (l1 ++ t :: l2).
Proof.
  intros Hf Ht Hv. apply calculate_token_balances_replace.
  apply deltas_of_insert_other; assumption.
Qed.

Lemma other_fields_are_ignored_witness :
  calculate_token_balances
    ([] ++ <["rawContract" := PDict]>
             (transfer_of (PStr ZERO_ADDRESS) (PStr "0xA") (PFloat (S754_finite false 5 (-1))))
        :: [])
  = calculate_token_balances
      ([] ++ transfer_of (PStr ZERO_ADDRESS) (PStr "0xA") (PFloat (S754_finite false 5 (-1)))
          :: []).
Proof. apply other_fields_are_ignored; discriminate. Defined.
